(** * NYSE auction scraper: a shallow embedding of [NYSE_Auction_Scraper.py]

    Definitions, in this order:
    - Python exceptions and results;
    - the part of [datetime] that [get_weekdays] calls, and [get_weekdays];
    - JSON values, and the in-page script [raw_data_script] (JavaScript);
    - a state and exception monad, the Python operations applied to the
      value [json.loads] returns, and the loops that flatten it into
      records;
    - the class [AdvancedWebScraper], [nyse_auction_scraper_example] and
      [main], over an explicit environment (browser, clock, file system)
      whose every call may raise;
    - the data model of the extraction result and the vocabulary of the
      statements.
    The proofs follow: lemmas on each part, the statements about the
    whole program, and further properties of the same code.

    Python strings are modelled by [string], that is, by sequences of code
    points below 256.  Exceptions are identified by their class; only
    instances of Python's [Exception] are modelled, which is what every
    [except Exception] clause of the source intercepts and what the
    libraries called here raise. *)

From Stdlib Require Import ZArith QArith List String Ascii Bool Lia Arith Sorted.
Import ListNotations.

Set Implicit Arguments.
Set Warnings "-register-all".

Open Scope string_scope.
Open Scope list_scope.

(* ------------------------------------------------------------------ *)
(** ** Exceptions and results *)

Inductive exn : Type :=
| ValueError
| OverflowError
| KeyError
| TypeError
| AttributeError
| OSError
| JSONDecodeError
| TimeoutException
| WebDriverException
| JavascriptException
| OtherException (class_name : string).

Inductive result (A : Type) : Type :=
| Ok (a : A)
| Raise (e : exn).

Arguments Ok {A} a.
Arguments Raise {A} e.

Definition is_ok {A} (r : result A) : bool :=
  match r with Ok _ => true | Raise _ => false end.

(* ------------------------------------------------------------------ *)
(** ** The calendar arithmetic of [datetime] *)

Module DateTime.
Local Open Scope Z_scope.

(** A [datetime] as [strptime] builds it from a format without time
    fields: hour, minute, second and microsecond are 0 and there is no
    time zone, so only the date fields are kept. *)
Record datetime : Type := mk_datetime { year : Z; month : Z; day : Z }.

Definition MINYEAR : Z := 1.
Definition MAXYEAR : Z := 9999.
Definition MAXORDINAL : Z := 3652059.

Definition DAYS_IN_MONTH : list Z :=
  [-1; 31; 28; 31; 30; 31; 30; 31; 31; 30; 31; 30; 31].

Definition DAYS_BEFORE_MONTH : list Z :=
  [-1; 0; 31; 59; 90; 120; 151; 181; 212; 243; 273; 304; 334].

(** [table[i]] for the two tables above; every index the code uses lies
    in 1..12. *)
Definition index (table : list Z) (i : Z) : Z := nth (Z.to_nat i) table (-1).

Definition b2z (b : bool) : Z := if b then 1 else 0.

Definition is_leap (y : Z) : bool :=
  (y mod 4 =? 0) && (negb (y mod 100 =? 0) || (y mod 400 =? 0)).

Definition days_before_year (y0 : Z) : Z :=
  let y := y0 - 1 in
  y * 365 + y / 4 - y / 100 + y / 400.

Definition days_in_month (y m : Z) : Z :=
  if (m =? 2) && is_leap y then 29 else index DAYS_IN_MONTH m.

Definition days_before_month (y m : Z) : Z :=
  index DAYS_BEFORE_MONTH m + b2z ((2 <? m) && is_leap y).

Definition ymd2ord (y m d : Z) : Z :=
  days_before_year y + days_before_month y m + d.

Definition DI400Y : Z := 146097.
Definition DI100Y : Z := 36524.
Definition DI4Y : Z := 1461.

Definition ord2ymd (n0 : Z) : datetime :=
  let n := n0 - 1 in
  let n400 := n / DI400Y in
  let n := n mod DI400Y in
  let y := n400 * 400 + 1 in
  let n100 := n / DI100Y in
  let n := n mod DI100Y in
  let n4 := n / DI4Y in
  let n := n mod DI4Y in
  let n1 := n / 365 in
  let n := n mod 365 in
  let y := y + (n100 * 100 + n4 * 4 + n1) in
  if (n1 =? 4) || (n100 =? 4) then mk_datetime (y - 1) 12 31
  else
    let leapyear := (n1 =? 3) && (negb (n4 =? 24) || (n100 =? 3)) in
    let m := Z.shiftr (n + 50) 5 in
    let preceding := index DAYS_BEFORE_MONTH m + b2z ((2 <? m) && leapyear) in
    let '(m, preceding) :=
      if n <? preceding
      then (m - 1,
            preceding - (index DAYS_IN_MONTH (m - 1)
                         + b2z ((m - 1 =? 2) && leapyear)))
      else (m, preceding) in
    mk_datetime y m (n - preceding + 1).

(** [_check_date_fields], run by the [datetime] constructor. *)
Definition check_date_fields (y m d : Z) : result datetime :=
  if negb ((MINYEAR <=? y) && (y <=? MAXYEAR)) then Raise ValueError
  else if negb ((1 <=? m) && (m <=? 12)) then Raise ValueError
  else if negb ((1 <=? d) && (d <=? days_in_month y m)) then Raise ValueError
  else Ok (mk_datetime y m d).

Definition toordinal (t : datetime) : Z := ymd2ord (year t) (month t) (day t).

Definition fromordinal (n : Z) : datetime := ord2ymd n.

(** Monday is 0, Sunday is 6. *)
Definition weekday (t : datetime) : Z := (toordinal t + 6) mod 7.

(** [_cmp] on the field tuples. *)
Definition cmp (a b : datetime) : comparison :=
  match year a ?= year b with
  | Eq => match month a ?= month b with
          | Eq => day a ?= day b
          | c => c
          end
  | c => c
  end.

Definition le (a b : datetime) : bool :=
  match cmp a b with Gt => false | _ => true end.

(** [t + timedelta(days=days)]. *)
Definition add_days (t : datetime) (days : Z) : result datetime :=
  let o := toordinal t + days in
  if (0 <? o) && (o <=? MAXORDINAL) then Ok (fromordinal o)
  else Raise OverflowError.

(** *** [strptime(s, "%m-%d-%Y")]

    [_strptime] compiles the format to the regular expression
    [(?P<m>1[0-2]|0[1-9]|[1-9])-(?P<d>3[0-1]|[1-2]\d|0[1-9]|[1-9]| [1-9])-(?P<Y>\d\d\d\d)]
    and applies [match] to the data string.  The matcher below lists the
    ways a group can match in the order the backtracking engine tries its
    alternatives; the first complete path is the match. *)

Definition charclass : Type := ascii -> bool.

Definition in_range (lo hi : string) : charclass :=
  fun c =>
    match lo, hi with
    | String l EmptyString, String h EmptyString =>
        ((nat_of_ascii l <=? nat_of_ascii c)%nat
         && (nat_of_ascii c <=? nat_of_ascii h)%nat)%bool
    | _, _ => false
    end.

Definition digit : charclass := in_range "0" "9".

Definition just (x : string) : charclass := in_range x x.

(** Match a sequence of character classes at the start of [s]: the text
    matched and what follows it. *)
Fixpoint match_seq (cs : list charclass) (s : string) : option (string * string) :=
  match cs with
  | [] => Some (EmptyString, s)
  | c :: cs' =>
      match s with
      | EmptyString => None
      | String a s' =>
          if c a then
            match match_seq cs' s' with
            | Some (m, r) => Some (String a m, r)
            | None => None
            end
          else None
      end
  end.

Definition alternatives (alts : list (list charclass)) (s : string)
  : list (string * string) :=
  flat_map (fun alt => match match_seq alt s with
                       | Some mr => [mr]
                       | None => []
                       end) alts.

Definition re_m : list (list charclass) :=
  [ [just "1"; in_range "0" "2"]; [just "0"; in_range "1" "9"]; [in_range "1" "9"] ].

Definition re_d : list (list charclass) :=
  [ [just "3"; in_range "0" "1"]; [in_range "1" "2"; digit];
    [just "0"; in_range "1" "9"]; [in_range "1" "9"];
    [just " "; in_range "1" "9"] ].

Definition re_Y : list (list charclass) := [ [digit; digit; digit; digit] ].

Definition literal (x : string) (s : string) : list string :=
  match match_seq [just x] s with
  | Some (_, r) => [r]
  | None => []
  end.

(** All paths through the expression, in the engine's order: the groups
    [m], [d], [Y] and the unconsumed rest. *)
Definition format_regex_paths (s : string) : list (string * string * string * string) :=
  flat_map (fun '(m, s1) =>
  flat_map (fun s2 =>
  flat_map (fun '(d, s3) =>
  flat_map (fun s4 =>
  flat_map (fun '(y, s5) => [(m, d, y, s5)])
    (alternatives re_Y s4))
    (literal "-" s3))
    (alternatives re_d s2))
    (literal "-" s1))
    (alternatives re_m s).

Definition format_regex_match (s : string) : option (string * string * string * string) :=
  hd_error (format_regex_paths s).

(** [int] on a matched group: surrounding blanks are skipped, then the
    decimal digits are read. *)
Fixpoint int_digits (acc : Z) (s : string) : Z :=
  match s with
  | EmptyString => acc
  | String c s' =>
      if digit c then int_digits (10 * acc + Z.of_nat (nat_of_ascii c - 48)) s'
      else int_digits acc s'
  end.

Definition int (s : string) : Z := int_digits 0 s.

Definition strptime (data_string : string) : result datetime :=
  match format_regex_match data_string with
  | None => Raise ValueError                      (* does not match format *)
  | Some (m, d, y, rest) =>
      match rest with
      | String _ _ => Raise ValueError            (* unconverted data remains *)
      | EmptyString => check_date_fields (int y) (int m) (int d)
      end
  end.

(** *** [strftime("%m-%d-%Y")]

    Month and day are zero-padded to two digits and the year is written
    with four digits.  (For years below 1000 the C library decides
    whether [%Y] pads; the padding variant is taken here.  No statement
    below depends on the text of such a year.) *)

Definition digit_char (d : Z) : ascii := ascii_of_nat (48 + Z.to_nat (d mod 10)).

Definition pad2 (n : Z) : string :=
  String (digit_char (n / 10)) (String (digit_char n) EmptyString).

Definition pad4 (n : Z) : string :=
  String (digit_char (n / 1000)) (String (digit_char (n / 100))
    (String (digit_char (n / 10)) (String (digit_char n) EmptyString))).

Definition strftime (t : datetime) : string :=
  (pad2 (month t) ++ "-" ++ pad2 (day t) ++ "-" ++ pad4 (year t))%string.

End DateTime.

(* ------------------------------------------------------------------ *)
(** ** [get_weekdays] *)

Import DateTime.

(** The [while] loop.  [None] means the fuel ran out before the loop
    condition became false. *)
Fixpoint get_weekdays_loop (fuel : nat) (current end_ : datetime)
    (weekdays : list string) : option (result (list string)) :=
  match fuel with
  | O => None
  | S fuel' =>
      if DateTime.le current end_ then
        let weekdays :=
          if (weekday current <? 5)%Z
          then weekdays ++ [strftime current]
          else weekdays in
        match add_days current 1 with
        | Raise e => Some (Raise e)
        | Ok current => get_weekdays_loop fuel' current end_ weekdays
        end
      else Some (Ok weekdays)
  end.

(** One unit of fuel per day from [start] to [end_] inclusive, and one
    for the test that leaves the loop. *)
Definition get_weekdays_fuel (start end_ : datetime) : nat :=
  S (Z.to_nat (toordinal end_ - toordinal start + 1)).

Definition get_weekdays (start_date end_date : string)
  : option (result (list string)) :=
  match strptime start_date with
  | Raise e => Some (Raise e)
  | Ok start =>
      match strptime end_date with
      | Raise e => Some (Raise e)
      | Ok end_ =>
          get_weekdays_loop (get_weekdays_fuel start end_) start end_ []
      end
  end.


(* ------------------------------------------------------------------ *)
(** ** JSON values

    The in-page script returns [JSON.stringify(rawData)] and Python reads
    it back with [json.loads]; both sides are described over the same
    type of JSON values.  An object keeps its members in insertion order,
    with distinct keys.  Numbers are only carried, never computed with. *)

Definition number : Type := Q.

Inductive json : Type :=
| JNull
| JBool (b : bool)
| JNum (n : number)
| JStr (s : string)
| JArr (items : list json)
| JObj (members : list (string * json)).

Fixpoint lookup (k : string) (members : list (string * json)) : option json :=
  match members with
  | [] => None
  | (k', v) :: rest => if String.eqb k k' then Some v else lookup k rest
  end.

(* ------------------------------------------------------------------ *)
(** ** The in-page script [raw_data_script] (JavaScript) *)

Module Js.

(** The part of a Highcharts chart the script reads.  An axis has no
    [categories] when it is not categorical; a point has [y = null] when
    it is a gap; [series] is kept optional because the script tests it. *)
Record DataLabel : Type := { textStr : string }.
Record Point : Type := { y : option number; dataLabel : option DataLabel }.
Record Series : Type := { points : list Point }.
Record Axis : Type := { categories : option (list string) }.
Record Chart : Type := { series : option (list Series); xAxis : list Axis }.

(** The page as the script sees it: the [textContent] of the elements
    matched by [h6.mb-4.pl-8.text-black], in document order, and the
    array [Highcharts.charts], whose entries are [undefined] for
    destroyed charts. *)
Record Page : Type := { headers : list string; charts : list (option Chart) }.

(** [String.prototype.includes]. *)
Fixpoint starts_with (search text : string) : bool :=
  match search, text with
  | EmptyString, _ => true
  | String a search', String b text' => Ascii.eqb a b && starts_with search' text'
  | String _ _, EmptyString => false
  end.

Fixpoint includes (text search : string) : bool :=
  starts_with search text
  || match text with
     | EmptyString => false
     | String _ text' => includes text' search
     end.

(** [obj[key] = value] on an object: an existing member keeps its place. *)
Fixpoint assign (members : list (string * json)) (key : string) (value : json)
  : list (string * json) :=
  match members with
  | [] => [(key, value)]
  | (k, v) :: rest =>
      if String.eqb key k then (k, value) :: rest
      else (k, v) :: assign rest key value
  end.

Definition point_value (p : Point) : json :=
  JObj [ ("y", match y p with Some n => JNum n | None => JNull end);
         ("label", match dataLabel p with
                   | Some l => JStr (textStr l)
                   | None => JNull
                   end) ].

(** [extractSeriesData(chart)].  Reading [categories] of a missing first
    axis throws; a member whose value is [undefined] is left out, as
    [JSON.stringify] drops it. *)
Definition extractSeriesData (chart : option Chart) : result json :=
  match chart with
  | None => Ok JNull
  | Some c =>
      match series c with
      | None | Some [] => Ok JNull
      | Some (s0 :: _) =>
          match xAxis c with
          | [] => Raise JavascriptException
          | axis0 :: _ =>
              Ok (JObj
                    ((match categories axis0 with
                      | Some cs => [("times", JArr (map JStr cs))]
                      | None => []
                      end)
                     ++ [("values", JArr (map point_value (points s0)))]))
          end
      end
  end.

Inductive auction_type : Type := opening | closing.

Definition type_name (t : auction_type) : string :=
  match t with opening => "opening" | closing => "closing" end.

Definition classify (header : string) : auction_type :=
  let isOpening := includes header "Opening" in
  if isOpening then opening else closing.

(** [rawData]: the two phase objects. *)
Record RawData : Type :=
  { rd_opening : list (string * json); rd_closing : list (string * json) }.

Definition rd_get (rd : RawData) (t : auction_type) : list (string * json) :=
  match t with opening => rd_opening rd | closing => rd_closing rd end.

Definition rd_set (rd : RawData) (t : auction_type) (o : list (string * json))
  : RawData :=
  match t with
  | opening => {| rd_opening := o; rd_closing := rd_closing rd |}
  | closing => {| rd_opening := rd_opening rd; rd_closing := o |}
  end.

(** The callback given to [headers.forEach], on the state
    [(rawData, chartIndex)]. *)
Definition on_header (charts : list (option Chart)) (st : RawData * nat)
    (header : string) : result (RawData * nat) :=
  let '(rawData, chartIndex) := st in
  let type := classify header in
  let at_ := fun i => nth i charts None in
  match extractSeriesData (at_ chartIndex) with
  | Raise e => Raise e
  | Ok a =>
      let rawData := rd_set rawData type (assign (rd_get rawData type) "imbalance" a) in
      match extractSeriesData (at_ (chartIndex + 1)%nat) with
      | Raise e => Raise e
      | Ok b =>
          let rawData := rd_set rawData type (assign (rd_get rawData type) "paired" b) in
          match extractSeriesData (at_ (chartIndex + 2)%nat) with
          | Raise e => Raise e
          | Ok c =>
              let rawData := rd_set rawData type (assign (rd_get rawData type) "price" c) in
              Ok (rawData, (chartIndex + 3)%nat)
          end
      end
  end.

Fixpoint forEach (charts : list (option Chart)) (headers : list string)
    (st : RawData * nat) : result (RawData * nat) :=
  match headers with
  | [] => Ok st
  | header :: rest =>
      match on_header charts st header with
      | Raise e => Raise e
      | Ok st' => forEach charts rest st'
      end
  end.

Definition rawData_value (rd : RawData) : json :=
  JObj [("opening", JObj (rd_opening rd)); ("closing", JObj (rd_closing rd))].

(** The value whose [JSON.stringify] text the script returns. *)
Definition raw_data_script (page : Page) : result json :=
  let rawData := {| rd_opening := []; rd_closing := [] |} in
  let chartIndex := 0%nat in
  match forEach (charts page) (headers page) (rawData, chartIndex) with
  | Raise e => Raise e
  | Ok (rawData, _) => Ok (rawData_value rawData)
  end.

End Js.

(* ------------------------------------------------------------------ *)
(** ** A state and exception monad for the Python code *)

Definition M (S A : Type) : Type := S -> result A * S.

Definition ret {S A} (a : A) : M S A := fun s => (Ok a, s).

Definition raise {S A} (e : exn) : M S A := fun s => (Raise e, s).

Definition bind {S A B} (m : M S A) (k : A -> M S B) : M S B :=
  fun s =>
    match m s with
    | (Ok a, s') => k a s'
    | (Raise e, s') => (Raise e, s')
    end.

Declare Scope py_scope.
Delimit Scope py_scope with py.
Notation "x <- m ;; k" := (bind m (fun x => k))
  (at level 61, m at next level, right associativity) : py_scope.
Notation "m ;; k" := (bind m (fun _ => k))
  (at level 61, right associativity) : py_scope.
Open Scope py_scope.

(** A pure step that may raise. *)
Definition lift {S A} (r : result A) : M S A := fun s => (r, s).

Definition modify {S} (f : S -> S) : M S unit := fun s => (Ok tt, f s).

Definition gets {S A} (f : S -> A) : M S A := fun s => (Ok (f s), s).

(** [try: body  except Exception as e: handler e]. *)
Definition try_except {S A} (body : M S A) (handler : exn -> M S A) : M S A :=
  fun s =>
    match body s with
    | (Ok a, s') => (Ok a, s')
    | (Raise e, s') => handler e s'
    end.

(** [try: body  finally: final].  The [finally] suite runs in both cases;
    an exception of its own takes the place of the body's outcome. *)
Definition try_finally {S A} (body : M S A) (final : M S unit) : M S A :=
  fun s =>
    match body s with
    | (r, s') =>
        match final s' with
        | (Ok _, s'') => (r, s'')
        | (Raise e, s'') => (Raise e, s'')
        end
    end.

(** [for x in xs: body x]. *)
Fixpoint for_ {S A} (xs : list A) (body : A -> M S unit) : M S unit :=
  match xs with
  | [] => ret tt
  | x :: rest => body x ;; for_ rest body
  end.

(* ------------------------------------------------------------------ *)
(** ** Python operations on the value [json.loads] returns *)

(** Truth value of an object. *)
Definition truthy (v : json) : bool :=
  match v with
  | JNull => false
  | JBool b => b
  | JNum n => negb (Qeq_bool n 0)
  | JStr s => negb (String.eqb s "")
  | JArr items => match items with [] => false | _ => true end
  | JObj members => match members with [] => false | _ => true end
  end.

(** [v[key]] for a string key. *)
Definition getitem (v : json) (key : string) : result json :=
  match v with
  | JObj members =>
      match lookup key members with
      | Some x => Ok x
      | None => Raise KeyError
      end
  | _ => Raise TypeError
  end.

(** [v.get(key)]. *)
Definition get (v : json) (key : string) : result json :=
  match v with
  | JObj members =>
      match lookup key members with
      | Some x => Ok x
      | None => Ok JNull
      end
  | _ => Raise AttributeError
  end.

(** The items [iter(v)] yields. *)
Definition iter (v : json) : result (list json) :=
  match v with
  | JArr items => Ok items
  | JStr s => Ok (map (fun c => JStr (String c EmptyString)) (list_ascii_of_string s))
  | JObj members => Ok (map (fun kv => JStr (fst kv)) members)
  | _ => Raise TypeError
  end.

(** [zip(a, b)], run to the end: it stops with the shorter argument. *)
Definition zip (a b : json) : result (list (json * json)) :=
  match iter a with
  | Raise e => Raise e
  | Ok xs =>
      match iter b with
      | Raise e => Raise e
      | Ok ys => Ok (combine xs ys)
      end
  end.

(* ------------------------------------------------------------------ *)
(** ** The records the run collects *)

Record AuctionRecord : Type :=
  { symbol : string;
    date : string;
    auction_type : string;
    metric : string;
    time : json;
    value : json;
    label : json }.

(** Lines 121-137 of the source: the loops that flatten [raw_data] for one
    [(ticker, date)] into [all_data], the state of this computation. *)
Definition metric_name (metric : string) : string :=
  if String.eqb metric "paired" then "paired_quantity"
  else if String.eqb metric "price" then "clearing_price"
  else metric.

Definition append (r : AuctionRecord) : M (list AuctionRecord) unit :=
  modify (fun all_data => all_data ++ [r]).

Definition normalize (ticker date : string) (raw_data : json)
  : M (list AuctionRecord) unit :=
  for_ ["opening"; "closing"] (fun auction_type =>
    phase <- lift (getitem raw_data auction_type) ;;
    if truthy phase then
      for_ ["imbalance"; "paired"; "price"] (fun metric =>
        phase <- lift (getitem raw_data auction_type) ;;
        series <- lift (get phase metric) ;;
        if truthy series then
          phase <- lift (getitem raw_data auction_type) ;;
          series <- lift (getitem phase metric) ;;
          times <- lift (getitem series "times") ;;
          phase <- lift (getitem raw_data auction_type) ;;
          series <- lift (getitem phase metric) ;;
          values <- lift (getitem series "values") ;;
          let metric_name := metric_name metric in
          pairs <- lift (zip times values) ;;
          for_ pairs (fun '(t, v) =>
            y <- lift (getitem v "y") ;;
            l <- lift (getitem v "label") ;;
            append {| symbol := ticker;
                      date := date;
                      auction_type := auction_type;
                      metric := metric_name;
                      time := t;
                      value := y;
                      label := l |})
        else ret tt)
    else ret tt).

(* ------------------------------------------------------------------ *)
(** ** The environment: browser, clock and file system

    Every call that leaves the interpreter is a transition of an
    environment state that either returns or raises.  [json_loads] is the
    text-to-value function of the [json] module, taken as given. *)

Definition Callable : Type := string.
Definition seconds : Type := Q.

Record Environment : Type :=
  { Env : Type;
    os_makedirs : Env -> result unit * Env;
    ChromeDriverManager_install : Env -> result unit * Env;
    webdriver_Chrome : bool -> Env -> result unit * Env;
    driver_get : string -> Env -> result unit * Env;
    wait_until : Callable -> Env -> result unit * Env;
    time_sleep : seconds -> Env -> result unit * Env;
    driver_execute_script : string -> Env -> result json * Env;
    json_loads : string -> result json;
    to_csv : list AuctionRecord -> Env -> result unit * Env;
    driver_quit : Env -> result unit * Env }.

(** The calls made to the environment, in order. *)
Inductive call : Type :=
| Call_os_makedirs
| Call_ChromeDriverManager_install
| Call_webdriver_Chrome (headless : bool)
| Call_driver_get (url : string)
| Call_wait_until (condition : Callable)
| Call_time_sleep (secs : seconds)
| Call_driver_execute_script (script : string)
| Call_to_csv (rows : list AuctionRecord)
| Call_driver_quit.

Inductive log_record : Type :=
| INFO (message : string)
| WARNING (message : string)
| ERROR (message : string) (e : exn).

Section Scraper.
Context {E : Environment}.

Record state : Type :=
  { env : Env E;
    calls : list call;
    log : list log_record;
    all_data : list AuctionRecord }.

Definition call_env {A} (c : call) (f : Env E -> result A * Env E) : M state A :=
  fun s =>
    let '(r, env') := f (env s) in
    (r, {| env := env'; calls := calls s ++ [c]; log := log s;
           all_data := all_data s |}).

Definition logger (r : log_record) : M state unit :=
  modify (fun s => {| env := env s; calls := calls s; log := log s ++ [r];
                      all_data := all_data s |}).

(** Run a computation on [all_data] inside the whole state. *)
Definition on_all_data {A} (m : M (list AuctionRecord) A) : M state A :=
  fun s =>
    let '(r, d) := m (all_data s) in
    (r, {| env := env s; calls := calls s; log := log s; all_data := d |}).

(** *** class [AdvancedWebScraper] *)

(** [str.lower], on code points below 256. *)
Definition lower_char (c : ascii) : ascii :=
  let n := nat_of_ascii c in
  if ((65 <=? n) && (n <=? 90))%nat
     || ((192 <=? n) && (n <=? 222) && negb (n =? 215))%nat
  then ascii_of_nat (n + 32) else c.

Fixpoint lower (s : string) : string :=
  match s with
  | EmptyString => EmptyString
  | String c s' => String (lower_char c) (lower s')
  end.

Definition _setup_webdriver (browser : string) (headless : bool) : M state unit :=
  if negb (String.eqb (lower browser) "chrome") then raise ValueError
  else
    call_env Call_ChromeDriverManager_install (ChromeDriverManager_install E) ;;
    call_env (Call_webdriver_Chrome headless) (webdriver_Chrome E headless) ;;
    logger (INFO "WebDriver initialized successfully").

Definition __init__ (browser : string) (headless : bool) : M state unit :=
  call_env Call_os_makedirs (os_makedirs E) ;;
  _setup_webdriver browser headless.

Definition navigate (url : string) (wait_condition : option Callable)
    (additional_wait : seconds) : M state bool :=
  try_except
    (call_env (Call_driver_get url) (driver_get E url) ;;
     match wait_condition with
     | Some c => call_env (Call_wait_until c) (wait_until E c)
     | None => ret tt
     end ;;
     call_env (Call_time_sleep additional_wait) (time_sleep E additional_wait) ;;
     ret true)
    (fun e =>
       logger (ERROR "Navigation error: " e) ;;
       ret false).

Definition close : M state unit :=
  try_except
    (call_env Call_driver_quit (driver_quit E) ;;
     logger (INFO "WebDriver closed successfully"))
    (fun e => logger (ERROR "Error closing WebDriver: " e)).

(** *** [nyse_auction_scraper_example] *)

Definition highcharts_ready : Callable :=
  "return typeof Highcharts !== 'undefined' && Highcharts.charts.length > 0".

(** Stands for the text of the in-page script of lines 93-118. *)
Definition raw_data_script_text : string := "raw_data_script".

(** [json.loads(scraper.driver.execute_script(raw_data_script))]. *)
Definition load_raw_data : M state json :=
  returned <- call_env (Call_driver_execute_script raw_data_script_text)
                (driver_execute_script E raw_data_script_text) ;;
  match returned with
  | JStr text => lift (json_loads E text)
  | _ => raise TypeError
  end.

Definition request_url (ticker date : string) : string :=
  ("https://www.nyse.com/nyse-auction-data?symbol=" ++ ticker
   ++ "&date=" ++ date)%string.

(** The body of the inner loop, for one [(ticker, date)]. *)
Definition process_pair (ticker date : string) : M state unit :=
  let url := request_url ticker date in
  let wait_condition := highcharts_ready in
  ok <- navigate url (Some wait_condition) 3%Q ;;
  if ok then
    raw_data <- load_raw_data ;;
    on_all_data (normalize ticker date raw_data)
  else
    logger (WARNING ("Failed to navigate to URL for " ++ ticker ++ " on "
                     ++ date)%string).

(** Lines 141-147: the data frame and the CSV file. *)
Definition export : M state unit :=
  rows <- gets all_data ;;
  call_env (Call_to_csv rows) (to_csv E rows) ;;
  logger (INFO "Saved consolidated data to web_scraper_output/nyse_auction_data_consolidated.csv").

Definition reset_all_data : M state unit :=
  modify (fun s => {| env := env s; calls := calls s; log := log s;
                      all_data := [] |}).

(** The [try] statement of lines 85-152. *)
Definition scrape (tickers dates : list string) : M state unit :=
  try_finally
    (try_except
       (for_ tickers (fun ticker =>
          for_ dates (fun date => process_pair ticker date)) ;;
        export)
       (fun e => logger (ERROR "Scraping failed: " e)))
    close.

Definition nyse_auction_scraper_example (tickers dates : list string)
  : M state unit :=
  __init__ "chrome" false ;;
  reset_all_data ;;
  scrape tickers dates.

(** [main], with its three constants as arguments.  [None] only if
    [get_weekdays] could run out of fuel. *)
Definition main_with (tickers : list string) (start_date end_date : string)
  : option (M state unit) :=
  match get_weekdays start_date end_date with
  | None => None
  | Some (Raise e) => Some (raise e)
  | Some (Ok dates) => Some (nyse_auction_scraper_example tickers dates)
  end.

Definition main : option (M state unit) :=
  main_with ["A"; "MMM"; "WFC"] "12-01-2024" "12-05-2024".

End Scraper.

Arguments state : clear implicits.

(* ------------------------------------------------------------------ *)
(** ** The data model of the extraction result

    A [RawChartBundle] describes what the in-page script returns on a page
    whose charts have a categorical axis and no gap among their points:
    [bundle_value] is the JSON value returned (lemma
    [script_output_is_bundle]).  A phase without heading is the empty
    object; a missing chart is [null]. *)

Record PointData : Type := { pd_y : number; pd_label : option string }.

Record SeriesData : Type := { times : list string; values : list PointData }.

Record PhaseData : Type :=
  { imbalance : option SeriesData;
    paired : option SeriesData;
    price : option SeriesData }.

Record RawChartBundle : Type :=
  { opening : option PhaseData; closing : option PhaseData }.

Definition point_value (p : PointData) : json :=
  JObj [ ("y", JNum (pd_y p));
         ("label", match pd_label p with Some l => JStr l | None => JNull end) ].

Definition series_value (s : option SeriesData) : json :=
  match s with
  | None => JNull
  | Some sd => JObj [ ("times", JArr (map JStr (times sd)));
                      ("values", JArr (map point_value (values sd))) ]
  end.

Definition phase_value (p : option PhaseData) : json :=
  match p with
  | None => JObj []
  | Some ph => JObj [ ("imbalance", series_value (imbalance ph));
                      ("paired", series_value (paired ph));
                      ("price", series_value (price ph)) ]
  end.

Definition bundle_value (b : RawChartBundle) : json :=
  JObj [ ("opening", phase_value (opening b));
         ("closing", phase_value (closing b)) ].

(* ------------------------------------------------------------------ *)
(** ** Vocabulary of the statements *)

(** The phases and chart slots of a bundle, with the keys the script gives
    them. *)
Inductive phase : Type := Opening | Closing.
Inductive slot : Type := Imbalance | Paired | Price.

Definition phase_name (p : phase) : string :=
  match p with Opening => "opening" | Closing => "closing" end.

Definition slot_name (s : slot) : string :=
  match s with Imbalance => "imbalance" | Paired => "paired" | Price => "price" end.

Definition phase_at (b : RawChartBundle) (p : phase) : option PhaseData :=
  match p with Opening => opening b | Closing => closing b end.

Definition slot_at (ph : PhaseData) (s : slot) : option SeriesData :=
  match s with
  | Imbalance => imbalance ph
  | Paired => paired ph
  | Price => price ph
  end.

(** The series present at [(p, s)], if any. *)
Definition series_at (b : RawChartBundle) (p : phase) (s : slot)
  : option SeriesData :=
  match phase_at b p with
  | None => None
  | Some ph => slot_at ph s
  end.

Definition all_phases : list phase := [Opening; Closing].
Definition all_slots : list slot := [Imbalance; Paired; Price].

(** The record built from index [i] of a series: time [t], point [v]. *)
Definition record_of (ticker date : string) (p : phase) (s : slot)
    (t : string) (v : PointData) : AuctionRecord :=
  {| symbol := ticker;
     date := date;
     auction_type := phase_name p;
     metric := metric_name (slot_name s);
     time := JStr t;
     value := JNum (pd_y v);
     label := match pd_label v with Some l => JStr l | None => JNull end |}.

Definition series_records (ticker date : string) (p : phase) (s : slot)
    (sd : SeriesData) : list AuctionRecord :=
  map (fun tv => record_of ticker date p s (fst tv) (snd tv))
      (combine (times sd) (values sd)).

Definition group_records (ticker date : string) (b : RawChartBundle)
    (p : phase) (s : slot) : list AuctionRecord :=
  match series_at b p s with
  | None => []
  | Some sd => series_records ticker date p s sd
  end.

Definition bundle_records (ticker date : string) (b : RawChartBundle)
  : list AuctionRecord :=
  flat_map (fun p => flat_map (group_records ticker date b p) all_slots)
           all_phases.

(** Sum of [len(times)] over the present [(phase, metric)] combinations. *)
Definition times_count (b : RawChartBundle) : nat :=
  list_sum
    (flat_map (fun p =>
       map (fun s => match series_at b p s with
                     | None => O
                     | Some sd => List.length (times sd)
                     end) all_slots) all_phases).

(** The alignment precondition of the data model. *)
Definition aligned (b : RawChartBundle) : Prop :=
  forall p s sd, series_at b p s = Some sd ->
                 List.length (times sd) = List.length (values sd).

(** The records of the output that belong to group [(p, s)]. *)
Definition in_group (p : phase) (s : slot) (r : AuctionRecord) : bool :=
  String.eqb (auction_type r) (phase_name p)
  && String.eqb (metric r) (metric_name (slot_name s)).

(** Whether the three environment calls of [navigate] all return, from
    environment state [e]. *)
Definition page_settles {E : Environment} (url : string)
    (wait_condition : option Callable) (additional_wait : seconds)
    (e : Env E) : bool :=
  match driver_get E url e with
  | (Raise _, _) => false
  | (Ok _, e1) =>
      let '(waited, e2) :=
        match wait_condition with
        | Some c => wait_until E c e1
        | None => (Ok tt, e1)
        end in
      match waited with
      | Raise _ => false
      | Ok _ => is_ok (fst (time_sleep E additional_wait e2))
      end
  end.



(** The loop body on a pair of the cross product. *)
Definition pair_body (E : Environment) (td : string * string) : M (state E) unit :=
  process_pair (fst td) (snd td).

Arguments pair_body : clear implicits.

(** The three members a heading gives to the phase object of its type. *)
Definition triple (a b c : json) : list (string * json) :=
  [("imbalance", a); ("paired", b); ("price", c)].

Definition same_type (t u : Js.auction_type) : bool :=
  match t, u with
  | Js.opening, Js.opening | Js.closing, Js.closing => true
  | _, _ => false
  end.

(** The position, counted from [i], of the last heading of type [t]. *)
Fixpoint last_heading_from (i : nat) (t : Js.auction_type) (headers : list string)
  : option nat :=
  match headers with
  | [] => None
  | h :: rest =>
      match last_heading_from (S i) t rest with
      | Some k => Some k
      | None => if same_type (Js.classify h) t then Some i else None
      end
  end.

Definition last_heading (t : Js.auction_type) (headers : list string) : option nat :=
  last_heading_from 0 t headers.

(** What the phase object of type [t] holds after the headings [hs]. *)
Definition phase_after (charts : list (option Js.Chart)) (hs : list string)
    (rd : Js.RawData) (t : Js.auction_type) : Prop :=
  match last_heading t hs with
  | None => Js.rd_get rd t = []
  | Some k =>
      exists a b c,
        Js.extractSeriesData (nth (3 * k) charts None) = Ok a
        /\ Js.extractSeriesData (nth (3 * k + 1) charts None) = Ok b
        /\ Js.extractSeriesData (nth (3 * k + 2) charts None) = Ok c
        /\ Js.rd_get rd t = triple a b c
  end.

Definition rawData0 : Js.RawData := {| Js.rd_opening := []; Js.rd_closing := [] |}.

(** A chart whose first series is read in full: its first axis is
    categorical and none of its points is a gap. *)
Definition plain_chart (c : Js.Chart) : bool :=
  match Js.series c with
  | Some (s0 :: _) =>
      match Js.xAxis c with
      | axis0 :: _ =>
          match Js.categories axis0 with Some _ => true | None => false end
      | [] => false
      end
      && forallb (fun p => match Js.y p with Some _ => true | None => false end)
                 (Js.points s0)
  | _ => true
  end.

(* ------------------------------------------------------------------ *)
(** ** A scripted environment, for running the program on examples

    The browser state is the URL it is at.  A scenario says at which URLs
    the readiness wait times out, what the in-page script returns at a
    URL, how [json.loads] reads it, and whether the export succeeds. *)

Record Scenario : Type :=
  { sc_timeout : string -> bool;
    sc_script : string -> result json;
    sc_loads : string -> result json;
    sc_csv : result unit }.

Definition scripted (sc : Scenario) : Environment :=
  {| Env := string;
     os_makedirs := fun u => (Ok tt, u);
     ChromeDriverManager_install := fun u => (Ok tt, u);
     webdriver_Chrome := fun _ u => (Ok tt, u);
     driver_get := fun url _ => (Ok tt, url);
     wait_until := fun _ u =>
       (if sc_timeout sc u then Raise TimeoutException else Ok tt, u);
     time_sleep := fun _ u => (Ok tt, u);
     driver_execute_script := fun _ u => (sc_script sc u, u);
     json_loads := sc_loads sc;
     to_csv := fun _ u => (sc_csv sc, u);
     driver_quit := fun u => (Ok tt, u) |}.

Definition initial_state (sc : Scenario) : state (scripted sc) :=
  {| env := "about:blank" : Env (scripted sc);
     calls := []; log := []; all_data := [] |}.

(** The bundle of the specification's last scenario. *)
Definition example_series : SeriesData :=
  {| times := ["09:28:00"; "09:29:00"];
     values := [ {| pd_y := 1000; pd_label := Some "1.0K" |};
                 {| pd_y := 1200; pd_label := None |} ] |}.

Definition example_bundle : RawChartBundle :=
  {| opening := Some {| imbalance := Some example_series;
                        paired := None; price := None |};
     closing := None |}.

(** Every page shows [example_bundle]; nothing fails. *)
Definition all_good : Scenario :=
  {| sc_timeout := fun _ => false;
     sc_script := fun u => Ok (JStr u);
     sc_loads := fun _ => Ok (bundle_value example_bundle);
     sc_csv := Ok tt |}.

(** The readiness wait times out on every page. *)
Definition all_timeouts : Scenario :=
  {| sc_timeout := fun _ => true;
     sc_script := fun u => Ok (JStr u);
     sc_loads := fun _ => Ok (bundle_value example_bundle);
     sc_csv := Ok tt |}.

(** The in-page script fails on the page of 12-02-2024 and works on the
    other pages. *)
Definition script_fails_once : Scenario :=
  {| sc_timeout := fun _ => false;
     sc_script := fun u =>
       if String.eqb u (@request_url "A" "12-02-2024")
       then Raise JavascriptException else Ok (JStr u);
     sc_loads := fun _ => Ok (bundle_value example_bundle);
     sc_csv := Ok tt |}.

(** Everything works until the CSV file is written. *)
Definition export_fails : Scenario :=
  {| sc_timeout := fun _ => false;
     sc_script := fun u => Ok (JStr u);
     sc_loads := fun _ => Ok (bundle_value example_bundle);
     sc_csv := Raise OSError |}.

(** A bundle in which nothing rendered, and one whose only series has
    three times for two values. *)
Definition empty_bundle : RawChartBundle := {| opening := None; closing := None |}.

Definition ragged_series : SeriesData :=
  {| times := ["15:50:00"; "15:55:00"; "15:59:00"];
     values := [ {| pd_y := 250; pd_label := None |};
                 {| pd_y := 300; pd_label := Some "300" |} ] |}.

Definition ragged_bundle : RawChartBundle :=
  {| opening := None;
     closing := Some {| imbalance := None; paired := Some ragged_series;
                        price := None |} |}.

(** A page with an opening and a closing section, whose fifth chart has
    been destroyed and whose sixth was never created. *)
Definition example_chart (cs : list string) (ys : list number) : option Js.Chart :=
  Some {| Js.series := Some [ {| Js.points :=
                                   map (fun n => {| Js.y := Some n;
                                                    Js.dataLabel := None |}) ys |} ];
          Js.xAxis := [ {| Js.categories := Some cs |} ] |}.

Definition example_page : Js.Page :=
  {| Js.headers := ["Opening Auction Imbalance"; "Closing Auction Imbalance"];
     Js.charts := [ example_chart ["09:28:00"] [1000];
                    example_chart ["09:28:00"] [5000];
                    example_chart ["09:28:00"] [101];
                    example_chart ["15:50:00"] [2000];
                    None ] |}.

(* ------------------------------------------------------------------ *)
(** ** Definitions used in the proofs *)

Section CalendarVocabulary.
Local Open Scope Z_scope.

(** The dates a [datetime] can hold. *)
Definition valid_date (t : datetime) : Prop :=
  1 <= year t <= 9999 /\ 1 <= month t <= 12 /\
  1 <= day t <= days_in_month (year t) (month t).

(** The month search of [ord2ymd], for a day offset [n] within a year. *)
Definition month_part (leapyear : bool) (n : Z) : Z * Z :=
  let m := Z.shiftr (n + 50) 5 in
  let preceding := index DAYS_BEFORE_MONTH m + b2z ((2 <? m) && leapyear) in
  if n <? preceding
  then (m - 1,
        preceding - (index DAYS_IN_MONTH (m - 1)
                     + b2z ((m - 1 =? 2) && leapyear)))
  else (m, preceding).

(** The check run over every day offset of a year. *)
Definition month_part_ok (leapyear : bool) (n : Z) : bool :=
  let '(m, p) := month_part leapyear n in
  (1 <=? m) && (m <=? 12)
  && (p =? index DAYS_BEFORE_MONTH m + b2z ((2 <? m) && leapyear))
  && (p <=? n)
  && (n - p <? (if (m =? 2) && leapyear then 29 else index DAYS_IN_MONTH m)).

(** The ordinals [lo], [lo + 1], ..., [lo + k - 1]. *)
Definition ordinals (lo : Z) (k : nat) : list Z :=
  map (fun i => lo + Z.of_nat i) (seq 0 k).

Definition is_weekday (t : datetime) : bool := weekday t <? 5.

(** The dates the loop is meant to visit and keep. *)
Definition weekdays_from (lo : Z) (k : nat) : list datetime :=
  filter is_weekday (map fromordinal (ordinals lo k)).

(** Chronological order. *)
Definition earlier (a b : datetime) : Prop := cmp a b = Lt.

End CalendarVocabulary.

(** The body of the innermost loop of [normalize], and one pass of its
    metric loop. *)
Definition emit (ticker date auction_type : string) (metric_name : string)
    (tv : json * json) : M (list AuctionRecord) unit :=
  let '(t, v) := tv in
  y <- lift (getitem v "y") ;;
  l <- lift (getitem v "label") ;;
  append {| symbol := ticker; date := date; auction_type := auction_type;
            metric := metric_name; time := t; value := y; label := l |}.

Definition on_metric (ticker date : string) (raw_data : json)
    (auction_type metric : string) : M (list AuctionRecord) unit :=
  phase <- lift (getitem raw_data auction_type) ;;
  series <- lift (get phase metric) ;;
  if truthy series then
    phase <- lift (getitem raw_data auction_type) ;;
    series <- lift (getitem phase metric) ;;
    times <- lift (getitem series "times") ;;
    phase <- lift (getitem raw_data auction_type) ;;
    series <- lift (getitem phase metric) ;;
    values <- lift (getitem series "values") ;;
    let metric_name := metric_name metric in
    pairs <- lift (zip times values) ;;
    for_ pairs (emit ticker date auction_type metric_name)
  else ret tt.

(** Every record a computation on [all_data] appends satisfies [P]. *)
Definition emits (P : AuctionRecord -> Prop) (A : Type)
    (m : M (list AuctionRecord) A) : Prop :=
  forall acc r acc', m acc = (r, acc') ->
    exists recs, acc' = acc ++ recs /\ Forall P recs.

Definition external_metric (r : AuctionRecord) : Prop :=
  metric r = "imbalance" \/ metric r = "paired_quantity"
  \/ metric r = "clearing_price".

(** The external name of each chart slot. *)
Definition remapped (s : slot) : string :=
  match s with
  | Imbalance => "imbalance"
  | Paired => "paired_quantity"
  | Price => "clearing_price"
  end.

Section TraceVocabulary.
Context {E : Environment}.

(** Every call a computation adds to the trace satisfies [P]. *)
Definition adds (P : call -> Prop) (A : Type) (m : M (state E) A) : Prop :=
  forall s r s', m s = (r, s') ->
    exists cs, calls s' = calls s ++ cs /\ Forall P cs.

(** The state after the handler of [scrape] has logged [e]. *)
Definition log_error (e : exn) (s : state E) : state E :=
  {| env := env s; calls := calls s;
     log := log s ++ [ERROR "Scraping failed: " e]; all_data := all_data s |}.

End TraceVocabulary.

Definition not_quit (c : call) : Prop := c <> Call_driver_quit.

(** A phase object of the script is empty or holds the three slots. *)
Definition shaped (rd : Js.RawData) : Prop :=
  forall t, Js.rd_get rd t = [] \/ exists a b c, Js.rd_get rd t = triple a b c.

(** The paths of [format_regex_paths] from the day group on, and from the
    year group on. *)
Definition paths_Y (m d : string) (s4 : string)
  : list (string * string * string * string) :=
  flat_map (fun '(y, s5) => [(m, d, y, s5)]) (alternatives re_Y s4).

Definition paths_d (m : string) (s2 : string)
  : list (string * string * string * string) :=
  flat_map (fun '(d, s3) =>
  flat_map (fun s4 => paths_Y m d s4) (literal "-" s3))
    (alternatives re_d s2).

(** The last day [datetime] can represent. *)
Definition last_day : datetime := {| year := 9999; month := 12; day := 31 |}.

(** Two more environments for examples: one in which no page can be
    loaded, one in which the browser cannot be started. *)
Definition offline : Environment :=
  {| Env := string;
     os_makedirs := fun u => (Ok tt, u);
     ChromeDriverManager_install := fun u => (Ok tt, u);
     webdriver_Chrome := fun _ u => (Ok tt, u);
     driver_get := fun _ u => (Raise WebDriverException, u);
     wait_until := fun _ u => (Ok tt, u);
     time_sleep := fun _ u => (Ok tt, u);
     driver_execute_script := fun _ u => (Ok (JStr u), u);
     json_loads := fun _ => Raise JSONDecodeError;
     to_csv := fun _ u => (Ok tt, u);
     driver_quit := fun u => (Ok tt, u) |}.

Definition no_browser : Environment :=
  {| Env := string;
     os_makedirs := fun u => (Ok tt, u);
     ChromeDriverManager_install := fun u => (Ok tt, u);
     webdriver_Chrome := fun _ u => (Raise WebDriverException, u);
     driver_get := fun url _ => (Ok tt, url);
     wait_until := fun _ u => (Ok tt, u);
     time_sleep := fun _ u => (Ok tt, u);
     driver_execute_script := fun _ u => (Ok (JStr u), u);
     json_loads := fun _ => Raise JSONDecodeError;
     to_csv := fun _ u => (Ok tt, u);
     driver_quit := fun u => (Ok tt, u) |}.

Definition blank (E : Environment) (e : Env E) : state E :=
  {| env := e; calls := []; log := []; all_data := [] |}.

(** The calls that create the scraper. *)
Definition setup_call (c : call) : Prop :=
  c = Call_os_makedirs \/ c = Call_ChromeDriverManager_install
  \/ c = Call_webdriver_Chrome false.

(** A series the loops of [normalize] go through without an error: it has
    [times] and [values], both can be iterated, and every value paired
    with a time has [y] and [label]. *)
Definition well_formed_series (series : json) : Prop :=
  exists times values pairs,
    getitem series "times" = Ok times
    /\ getitem series "values" = Ok values
    /\ zip times values = Ok pairs
    /\ forall tv, In tv pairs ->
         exists y l, getitem (snd tv) "y" = Ok y
                     /\ getitem (snd tv) "label" = Ok l.



(** Planned calls, each with the transition that performs it, run in
    order from environment state [e] up to and including the first that
    raises: the calls made, the error if any, the state reached. *)
Fixpoint run_steps (E : Environment)
    (steps : list (call * (Env E -> result unit * Env E))) (e : Env E)
  : list call * option exn * Env E :=
  match steps with
  | [] => ([], None, e)
  | (c, f) :: rest =>
      match f e with
      | (Raise x, e1) => ([c], Some x, e1)
      | (Ok _, e1) =>
          let '(made, err, e2) := run_steps E rest e1 in
          (c :: made, err, e2)
      end
  end.

(** The calls [navigate] plans: the wait only when a condition is given. *)
Definition navigate_steps (E : Environment) (url : string)
    (wait_condition : option Callable) (additional_wait : seconds)
  : list (call * (Env E -> result unit * Env E)) :=
  [(Call_driver_get url, driver_get E url)]
  ++ match wait_condition with
     | Some c => [(Call_wait_until c, wait_until E c)]
     | None => []
     end
  ++ [(Call_time_sleep additional_wait, time_sleep E additional_wait)].

(** A page without heading whose only chart has a series and no axis. *)
Definition bare_page : Js.Page :=
  {| Js.headers := [];
     Js.charts := [ Some {| Js.series := Some [ {| Js.points := [] |} ];
                            Js.xAxis := [] |} ] |}.

(* ================================================================== *)
(** * Proofs *)

(* ------------------------------------------------------------------ *)
(** ** The calendar and [get_weekdays] *)

Section Calendar.
Local Open Scope Z_scope.


Lemma is_leap_spec y :
  is_leap y = true <-> (y mod 4 = 0 /\ (y mod 100 <> 0 \/ y mod 400 = 0)).
Proof.
  unfold is_leap.
  rewrite andb_true_iff, orb_true_iff, negb_true_iff, !Z.eqb_eq, Z.eqb_neq.
  tauto.
Qed.

(** A year has 365 days, and one more when it is a leap year. *)
Lemma days_before_year_succ y :
  days_before_year (y + 1) = days_before_year y + 365 + b2z (is_leap y).
Proof.
  unfold days_before_year, b2z.
  destruct (is_leap y) eqn:E.
  - apply is_leap_spec in E. Z.div_mod_to_equations. lia.
  - assert (H : ~ (y mod 4 = 0 /\ (y mod 100 <> 0 \/ y mod 400 = 0))).
    { rewrite <- is_leap_spec, E. discriminate. }
    Z.div_mod_to_equations. lia.
Qed.

Lemma days_before_year_mono y y' : y <= y' -> days_before_year y <= days_before_year y'.
Proof.
  intros H. replace y' with (y + Z.of_nat (Z.to_nat (y' - y))) by lia.
  induction (Z.to_nat (y' - y)) as [|k IH].
  - rewrite Z.add_0_r. lia.
  - replace (y + Z.of_nat (S k)) with (y + Z.of_nat k + 1) by lia.
    rewrite days_before_year_succ. destruct (is_leap _); simpl; lia.
Qed.

(** The month search is right on each of the 365 or 366 day offsets. *)
Lemma month_part_table leapyear n :
  0 <= n < 365 + b2z leapyear -> month_part_ok leapyear n = true.
Proof.
  intros H.
  assert (T : forallb (fun k => month_part_ok true (Z.of_nat k)) (seq 0 366)
              && forallb (fun k => month_part_ok false (Z.of_nat k)) (seq 0 365) = true)
    by (vm_compute; reflexivity).
  apply andb_true_iff in T. destruct T as [T1 T2].
  rewrite forallb_forall in T1, T2.
  replace n with (Z.of_nat (Z.to_nat n)) by lia.
  destruct leapyear; simpl in H; [apply T1 | apply T2]; apply in_seq; lia.
Qed.

(** [ord2ymd], with its month search named. *)
Lemma ord2ymd_unfold n0 :
  ord2ymd n0 =
  let n := n0 - 1 in
  let n400 := n / DI400Y in
  let n := n mod DI400Y in
  let n100 := n / DI100Y in
  let n := n mod DI100Y in
  let n4 := n / DI4Y in
  let n := n mod DI4Y in
  let n1 := n / 365 in
  let n := n mod 365 in
  let y := n400 * 400 + 1 + (n100 * 100 + n4 * 4 + n1) in
  if (n1 =? 4) || (n100 =? 4) then mk_datetime (y - 1) 12 31
  else
    let leapyear := (n1 =? 3) && (negb (n4 =? 24) || (n100 =? 3)) in
    let '(m, preceding) := month_part leapyear n in
    mk_datetime y m (n - preceding + 1).
Proof. reflexivity. Qed.

(** [ord2ymd] inverts [ymd2ord] on the ordinals of [datetime], and its
    results are dates. *)
Lemma ord2ymd_correct n :
  1 <= n <= MAXORDINAL ->
  valid_date (ord2ymd n) /\ toordinal (ord2ymd n) = n.
Proof.
  intros Hn. unfold MAXORDINAL in Hn.
  rewrite ord2ymd_unfold. cbv zeta. unfold DI400Y, DI100Y, DI4Y.
  set (m0 := n - 1).
  set (n400 := m0 / 146097). set (r400 := m0 mod 146097).
  set (n100 := r400 / 36524). set (r100 := r400 mod 36524).
  set (n4 := r100 / 1461). set (r4 := r100 mod 1461).
  set (n1 := r4 / 365). set (r1 := r4 mod 365).
  assert (E400 : m0 = 146097 * n400 + r400 /\ 0 <= r400 < 146097)
    by (split; [apply Z.div_mod | apply Z.mod_pos_bound]; lia).
  assert (E100 : r400 = 36524 * n100 + r100 /\ 0 <= r100 < 36524)
    by (split; [apply Z.div_mod | apply Z.mod_pos_bound]; lia).
  assert (E4 : r100 = 1461 * n4 + r4 /\ 0 <= r4 < 1461)
    by (split; [apply Z.div_mod | apply Z.mod_pos_bound]; lia).
  assert (E1 : r4 = 365 * n1 + r1 /\ 0 <= r1 < 365)
    by (split; [apply Z.div_mod | apply Z.mod_pos_bound]; lia).
  assert (Hm0 : m0 = n - 1) by reflexivity.
  clearbody m0 n400 r400 n100 r100 n4 r4 n1 r1.
  destruct ((n1 =? 4) || (n100 =? 4)) eqn:Esp.
  - (* last day of a leap year *)
    set (Y := n400 * 400 + 1 + (n100 * 100 + n4 * 4 + n1) - 1).
    assert (HY : 1 <= Y <= 9999 /\ days_before_year Y + 366 = n /\ is_leap Y = true).
    { apply orb_true_iff in Esp. rewrite !Z.eqb_eq in Esp.
      rewrite is_leap_spec. unfold days_before_year. subst Y.
      Z.div_mod_to_equations. lia. }
    destruct HY as (HY1 & HY2 & HY3).
    unfold valid_date, toordinal, ymd2ord, days_in_month, days_before_month; simpl.
    rewrite HY3. simpl. change (index DAYS_IN_MONTH 12) with 31. lia.
  - apply orb_false_iff in Esp. rewrite !Z.eqb_neq in Esp.
    set (leapyear := (n1 =? 3) && (negb (n4 =? 24) || (n100 =? 3))).
    set (Y := n400 * 400 + 1 + (n100 * 100 + n4 * 4 + n1)).
    assert (HY : 1 <= Y <= 9999 /\ days_before_year Y + r1 + 1 = n).
    { unfold days_before_year. subst Y. Z.div_mod_to_equations. lia. }
    assert (HL : is_leap Y = leapyear).
    { subst leapyear Y. apply eq_true_iff_eq.
      rewrite is_leap_spec, andb_true_iff, orb_true_iff, negb_true_iff,
        !Z.eqb_eq, Z.eqb_neq.
      assert (B : 0 <= n100 <= 3 /\ 0 <= n4 <= 24 /\ 0 <= n1 <= 3 /\ 0 <= n400) by lia.
      clear - B.
      replace (n400 * 400 + 1 + (n100 * 100 + n4 * 4 + n1))
        with (4 * (100 * n400 + 25 * n100 + n4) + (n1 + 1)) by lia.
      Z.div_mod_to_equations. lia. }
    assert (Hr : 0 <= r1 < 365 + b2z leapyear).
    { destruct leapyear; simpl; lia. }
    pose proof (@month_part_table leapyear r1 Hr) as T.
    unfold month_part_ok in T.
    destruct (month_part leapyear r1) as [m p].
    rewrite !andb_true_iff, !Z.leb_le, Z.eqb_eq, Z.ltb_lt in T.
    destruct T as ((((T1 & T2) & T3) & T4) & T5).
    unfold valid_date, toordinal, ymd2ord, days_in_month, days_before_month; simpl.
    rewrite HL. lia.
Qed.

Ltac month_cases m :=
  let H := fresh "Hm" in
  assert (H : m = 1 \/ m = 2 \/ m = 3 \/ m = 4 \/ m = 5 \/ m = 6 \/ m = 7 \/
              m = 8 \/ m = 9 \/ m = 10 \/ m = 11 \/ m = 12) by lia;
  repeat (destruct H as [H | H]); subst m.

Lemma yday_bounds y m d :
  1 <= m <= 12 -> 1 <= d <= days_in_month y m ->
  1 <= days_before_month y m + d <= 365 + b2z (is_leap y).
Proof.
  intros Hm Hd. unfold days_in_month, days_before_month in *.
  month_cases m; destruct (is_leap y);
    cbv -[Z.le Z.lt Z.add] in Hd |- *; lia.
Qed.

Lemma days_before_month_step y m m' d :
  1 <= m -> m < m' -> m' <= 12 -> 1 <= d <= days_in_month y m ->
  days_before_month y m + d <= days_before_month y m'.
Proof.
  intros H1 H2 H3 Hd. unfold days_in_month, days_before_month in *.
  month_cases m; month_cases m'; try lia; destruct (is_leap y);
    cbv -[Z.le Z.lt Z.add] in Hd |- *; lia.
Qed.

Lemma toordinal_range t :
  valid_date t -> 1 <= toordinal t <= MAXORDINAL.
Proof.
  intros (Hy & Hm & Hd). unfold toordinal, ymd2ord.
  pose proof (@yday_bounds (year t) _ _ Hm Hd) as B.
  pose proof (@days_before_year_mono 1 (year t) ltac:(lia)) as L.
  pose proof (@days_before_year_mono (year t + 1) 10000 ltac:(lia)) as U.
  rewrite days_before_year_succ in U.
  change (days_before_year 1) with 0 in L.
  change (days_before_year 10000) with 3652059 in U.
  unfold MAXORDINAL. lia.
Qed.

(** Comparing dates field by field is comparing their ordinals. *)
Lemma toordinal_cmp a b :
  valid_date a -> valid_date b ->
  cmp a b = (toordinal a ?= toordinal b).
Proof.
  intros (Hya & Hma & Hda) (Hyb & Hmb & Hdb).
  unfold cmp, toordinal, ymd2ord. symmetry.
  pose proof (@yday_bounds (year a) _ _ Hma Hda) as Ba.
  pose proof (@yday_bounds (year b) _ _ Hmb Hdb) as Bb.
  destruct (Z.compare_spec (year a) (year b)) as [Ey | Ly | Ly].
  - rewrite Ey in *.
    destruct (Z.compare_spec (month a) (month b)) as [Em | Lm | Lm].
    + rewrite Em in *.
      destruct (Z.compare_spec (day a) (day b)); [apply Z.compare_eq_iff | apply Z.compare_lt_iff | apply Z.compare_gt_iff]; lia.
    + apply Z.compare_lt_iff.
      pose proof (@days_before_month_step (year b) (month a) (month b) (day a)
                    ltac:(lia) Lm ltac:(lia) Hda). lia.
    + apply Z.compare_gt_iff.
      pose proof (@days_before_month_step (year b) (month b) (month a) (day b)
                    ltac:(lia) Lm ltac:(lia) Hdb). lia.
  - apply Z.compare_lt_iff.
    pose proof (@days_before_year_mono (year a + 1) (year b) ltac:(lia)) as M.
    rewrite days_before_year_succ in M. lia.
  - apply Z.compare_gt_iff.
    pose proof (@days_before_year_mono (year b + 1) (year a) ltac:(lia)) as M.
    rewrite days_before_year_succ in M. lia.
Qed.

Lemma le_toordinal a b :
  valid_date a -> valid_date b ->
  DateTime.le a b = (toordinal a <=? toordinal b).
Proof.
  intros Ha Hb. unfold DateTime.le, Z.leb. now rewrite toordinal_cmp.
Qed.

Lemma cmp_eq a b : cmp a b = Eq -> a = b.
Proof.
  unfold cmp. destruct a as [ya ma da], b as [yb mb db]; simpl.
  destruct (Z.compare_spec ya yb); try discriminate.
  destruct (Z.compare_spec ma mb); try discriminate.
  destruct (Z.compare_spec da db); try discriminate.
  intros _. congruence.
Qed.

Lemma toordinal_inj a b :
  valid_date a -> valid_date b -> toordinal a = toordinal b -> a = b.
Proof.
  intros Ha Hb E. apply cmp_eq. rewrite toordinal_cmp by assumption.
  now apply Z.compare_eq_iff.
Qed.

Lemma fromordinal_toordinal t :
  valid_date t -> fromordinal (toordinal t) = t.
Proof.
  intros Ht. pose proof (toordinal_range Ht) as R.
  destruct (ord2ymd_correct R) as [V E].
  now apply toordinal_inj.
Qed.

Lemma check_date_fields_valid y m d t :
  check_date_fields y m d = Ok t -> valid_date t.
Proof.
  unfold check_date_fields, MINYEAR, MAXYEAR.
  destruct ((1 <=? y) && (y <=? 9999)) eqn:Ey; simpl; try discriminate.
  destruct ((1 <=? m) && (m <=? 12)) eqn:Em; simpl; try discriminate.
  destruct ((1 <=? d) && (d <=? days_in_month y m)) eqn:Ed; simpl; try discriminate.
  intros [= <-]. unfold valid_date; simpl.
  rewrite andb_true_iff, !Z.leb_le in Ey, Em, Ed. lia.
Qed.

Lemma check_date_fields_raise y m d e :
  check_date_fields y m d = Raise e -> e = ValueError.
Proof.
  unfold check_date_fields.
  repeat match goal with |- context [if ?b then _ else _] => destruct b end;
    congruence.
Qed.

Lemma strptime_valid s t : strptime s = Ok t -> valid_date t.
Proof.
  unfold strptime.
  destruct (format_regex_match s) as [[[[m d] y] rest]|]; try discriminate.
  destruct rest; try discriminate. apply check_date_fields_valid.
Qed.

Lemma strptime_raise s e : strptime s = Raise e -> e = ValueError.
Proof.
  unfold strptime.
  destruct (format_regex_match s) as [[[[m d] y] rest]|]; try congruence.
  destruct rest; try congruence. apply check_date_fields_raise.
Qed.

Lemma ordinals_S lo k : ordinals lo (S k) = lo :: ordinals (lo + 1) k.
Proof.
  unfold ordinals. simpl. rewrite Z.add_0_r. f_equal.
  rewrite <- seq_shift, map_map. apply map_ext. intros i. lia.
Qed.

Lemma in_ordinals lo k o : In o (ordinals lo k) <-> lo <= o < lo + Z.of_nat k.
Proof.
  unfold ordinals. rewrite in_map_iff. split.
  - intros (i & <- & Hi). apply in_seq in Hi. lia.
  - intros H. exists (Z.to_nat (o - lo)). split; [lia | apply in_seq; lia].
Qed.

Lemma weekdays_from_S t k :
  valid_date t ->
  weekdays_from (toordinal t) (S k) =
  filter is_weekday [t] ++ weekdays_from (toordinal t + 1) k.
Proof.
  intros V. unfold weekdays_from. rewrite ordinals_S. simpl map.
  rewrite fromordinal_toordinal by assumption.
  simpl. destruct (is_weekday t); reflexivity.
Qed.

Lemma add_days_1 t :
  valid_date t -> toordinal t < MAXORDINAL ->
  exists t', add_days t 1 = Ok t' /\ valid_date t' /\
             toordinal t' = toordinal t + 1.
Proof.
  intros V H. pose proof (toordinal_range V) as R.
  unfold add_days.
  replace ((0 <? toordinal t + 1) && (toordinal t + 1 <=? MAXORDINAL)) with true
    by (symmetry; apply andb_true_iff; split; [apply Z.ltb_lt | apply Z.leb_le]; lia).
  exists (fromordinal (toordinal t + 1)). split; [reflexivity|].
  apply ord2ymd_correct. lia.
Qed.

Lemma add_days_1_overflow t :
  toordinal t = MAXORDINAL -> add_days t 1 = Raise OverflowError.
Proof. intros E. unfold add_days. rewrite E. reflexivity. Qed.

Lemma loop_exit fuel current end_ acc :
  valid_date current -> valid_date end_ ->
  toordinal end_ < toordinal current ->
  get_weekdays_loop (S fuel) current end_ acc = Some (Ok acc).
Proof.
  intros Vc Ve H. simpl. rewrite le_toordinal by assumption.
  replace (toordinal current <=? toordinal end_) with false
    by (symmetry; apply Z.leb_gt; lia).
  reflexivity.
Qed.

Lemma loop_step fuel current end_ acc :
  valid_date current -> valid_date end_ ->
  toordinal current <= toordinal end_ ->
  get_weekdays_loop (S fuel) current end_ acc =
  match add_days current 1 with
  | Raise e => Some (Raise e)
  | Ok next =>
      get_weekdays_loop fuel next end_
        (acc ++ map strftime (filter is_weekday [current]))
  end.
Proof.
  intros Vc Ve H. simpl. rewrite le_toordinal by assumption.
  replace (toordinal current <=? toordinal end_) with true
    by (symmetry; apply Z.leb_le; lia).
  unfold is_weekday. destruct (weekday current <? 5); simpl;
    now rewrite ?app_nil_r.
Qed.

(** With [k] days left up to [end_], which is not the last day of
    [datetime], the loop returns the weekdays among them after [acc]. *)
Lemma loop_returns k : forall fuel current end_ acc,
  valid_date current -> valid_date end_ ->
  toordinal end_ < MAXORDINAL ->
  toordinal end_ - toordinal current + 1 = Z.of_nat k ->
  (k < fuel)%nat ->
  get_weekdays_loop fuel current end_ acc =
  Some (Ok (acc ++ map strftime (weekdays_from (toordinal current) k))).
Proof.
  induction k as [|k IH]; intros fuel current end_ acc Vc Ve Hmax Hk Hf;
    (destruct fuel as [|fuel]; [lia|]).
  - rewrite loop_exit by (assumption || lia).
    unfold weekdays_from, ordinals. simpl. now rewrite app_nil_r.
  - rewrite loop_step by (assumption || lia).
    destruct (@add_days_1 current Vc ltac:(lia)) as (next & -> & Vn & En).
    rewrite (IH fuel next end_) by (assumption || lia).
    rewrite weekdays_from_S, En, map_app, app_assoc by assumption.
    reflexivity.
Qed.

(** When [end_] is the last day of [datetime], the loop reaches it and
    fails on the next increment. *)
Lemma loop_overflows k : forall fuel current end_ acc,
  valid_date current -> valid_date end_ ->
  toordinal end_ = MAXORDINAL ->
  MAXORDINAL - toordinal current = Z.of_nat k ->
  (k < fuel)%nat ->
  get_weekdays_loop fuel current end_ acc = Some (Raise OverflowError).
Proof.
  induction k as [|k IH]; intros fuel current end_ acc Vc Ve Hmax Hk Hf;
    (destruct fuel as [|fuel]; [lia|]);
    rewrite loop_step by (assumption || lia).
  - rewrite add_days_1_overflow by lia. reflexivity.
  - destruct (@add_days_1 current Vc ltac:(lia)) as (next & -> & Vn & En).
    apply IH; (assumption || lia).
Qed.

Lemma in_weekdays_from lo k d :
  1 <= lo -> lo + Z.of_nat k - 1 <= MAXORDINAL ->
  (In d (weekdays_from lo k) <->
   valid_date d /\ lo <= toordinal d < lo + Z.of_nat k /\ weekday d < 5).
Proof.
  intros Hlo Hhi. unfold weekdays_from.
  rewrite filter_In, in_map_iff. unfold is_weekday. rewrite Z.ltb_lt.
  split.
  - intros ((o & <- & Ho) & Hw). apply in_ordinals in Ho.
    destruct (@ord2ymd_correct o ltac:(lia)) as [V T].
    unfold fromordinal. rewrite T. auto.
  - intros (V & Hr & Hw). split; [|assumption].
    exists (toordinal d). split; [now apply fromordinal_toordinal|].
    now apply in_ordinals.
Qed.

Lemma weekdays_from_sorted k : forall lo,
  1 <= lo -> lo + Z.of_nat k - 1 <= MAXORDINAL ->
  StronglySorted earlier (weekdays_from lo k).
Proof.
  induction k as [|k IH]; intros lo Hlo Hhi.
  - constructor.
  - destruct (@ord2ymd_correct lo ltac:(lia)) as [V T].
    replace lo with (toordinal (fromordinal lo)) at 1 by exact T.
    rewrite weekdays_from_S by exact V.
    fold (fromordinal lo) in T. rewrite T.
    assert (S' : StronglySorted earlier (weekdays_from (lo + 1) k))
      by (apply IH; lia).
    destruct (is_weekday (fromordinal lo)) eqn:Ew; simpl; rewrite Ew; simpl;
      [|exact S'].
    constructor; [exact S'|].
    apply Forall_forall. intros d Hd.
    apply in_weekdays_from in Hd; try lia. destruct Hd as (Vd & Hr & _).
    unfold earlier. rewrite toordinal_cmp by assumption.
    apply Z.compare_lt_iff. rewrite T. lia.
Qed.

(** The outcome of [get_weekdays] once both dates are parsed. *)
Lemma get_weekdays_parsed start_date end_date start end_ :
  strptime start_date = Ok start -> strptime end_date = Ok end_ ->
  get_weekdays start_date end_date =
  if toordinal end_ <? toordinal start then Some (Ok [])
  else if toordinal end_ =? MAXORDINAL then Some (Raise OverflowError)
  else Some (Ok (map strftime
                   (weekdays_from (toordinal start)
                      (Z.to_nat (toordinal end_ - toordinal start + 1))))).
Proof.
  intros Hs He. unfold get_weekdays. rewrite Hs, He.
  pose proof (strptime_valid _ Hs) as Vs. pose proof (strptime_valid _ He) as Ve.
  pose proof (toordinal_range Vs) as Rs. pose proof (toordinal_range Ve) as Re.
  unfold get_weekdays_fuel.
  destruct (Z.ltb_spec (toordinal end_) (toordinal start)) as [L | G].
  - now apply loop_exit.
  - destruct (Z.eqb_spec (toordinal end_) MAXORDINAL) as [M | M].
    + apply loop_overflows with (k := Z.to_nat (MAXORDINAL - toordinal start));
        (assumption || lia).
    + rewrite loop_returns
        with (k := Z.to_nat (toordinal end_ - toordinal start + 1));
        (assumption || lia || reflexivity).
Qed.

Lemma get_weekdays_terminates start_date end_date :
  exists r, get_weekdays start_date end_date = Some r.
Proof.
  destruct (strptime start_date) as [start|e] eqn:Hs.
  - destruct (strptime end_date) as [end_|e] eqn:He.
    + rewrite (get_weekdays_parsed _ _ Hs He).
      destruct (_ <? _); [eauto|]. destruct (_ =? _); eauto.
    + unfold get_weekdays. rewrite Hs, He. eauto.
  - unfold get_weekdays. rewrite Hs. eauto.
Qed.

(** What [get_weekdays] returns on a range that does not end on the last
    day [datetime] can represent: the dates of the range that fall on
    Monday to Friday, each once, in chronological order. *)
Lemma get_weekdays_in_range start_date end_date start end_ :
  strptime start_date = Ok start -> strptime end_date = Ok end_ ->
  DateTime.le start end_ = true ->
  toordinal end_ <> MAXORDINAL ->
  exists days,
    get_weekdays start_date end_date = Some (Ok (map strftime days))
    /\ (forall d, In d days <->
                  valid_date d /\ DateTime.le start d = true
                  /\ DateTime.le d end_ = true /\ weekday d < 5)
    /\ StronglySorted earlier days.
Proof.
  intros Hs He Hle Hmax.
  pose proof (strptime_valid _ Hs) as Vs. pose proof (strptime_valid _ He) as Ve.
  pose proof (toordinal_range Vs) as Rs. pose proof (toordinal_range Ve) as Re.
  rewrite le_toordinal in Hle by assumption. apply Z.leb_le in Hle.
  rewrite (get_weekdays_parsed _ _ Hs He).
  replace (toordinal end_ <? toordinal start) with false
    by (symmetry; apply Z.ltb_ge; lia).
  replace (toordinal end_ =? MAXORDINAL) with false
    by (symmetry; now apply Z.eqb_neq).
  eexists. split; [reflexivity|]. split.
  - intros d. rewrite in_weekdays_from by lia. split.
    + intros (V & Hr & Hw). rewrite !le_toordinal by assumption.
      rewrite !Z.leb_le. split; [exact V|]. split; [lia|]. split; [lia | exact Hw].
    + intros (V & H1 & H2 & Hw). rewrite le_toordinal in H1, H2 by assumption.
      rewrite Z.leb_le in H1, H2. split; [exact V|]. split; [lia | exact Hw].
  - apply weekdays_from_sorted; lia.
Qed.

End Calendar.

(* ------------------------------------------------------------------ *)
(** ** The normalizer on a bundle *)

Lemma bind_ok {S A B} (r : A) (k : A -> M S B) s :
  bind (lift (Ok r)) k s = k r s.
Proof. reflexivity. Qed.

Lemma for_app {S A} (xs ys : list A) (body : A -> M S unit) s :
  for_ (xs ++ ys) body s =
  match for_ xs body s with
  | (Ok _, s') => for_ ys body s'
  | (Raise e, s') => (Raise e, s')
  end.
Proof.
  revert s. induction xs as [|x xs IH]; intros s; simpl.
  - reflexivity.
  - unfold bind. destruct (body x s) as [[[]|e] s']; auto.
Qed.

Lemma for_pairs ticker date p s : forall ts vs acc,
  for_ (combine (map JStr ts) (map point_value vs))
       (emit ticker date (phase_name p) (metric_name (slot_name s))) acc =
  (Ok tt, acc ++ map (fun tv => record_of ticker date p s (fst tv) (snd tv))
                     (combine ts vs)).
Proof.
  induction ts as [|t ts IH]; intros vs acc; simpl.
  - now rewrite app_nil_r.
  - destruct vs as [|v vs]; simpl.
    + now rewrite app_nil_r.
    + unfold bind at 1. simpl. rewrite IH. rewrite <- app_assoc. reflexivity.
Qed.

(** [normalize], with its loop bodies named. *)
Lemma normalize_unfold ticker date raw_data :
  normalize ticker date raw_data =
  for_ ["opening"; "closing"] (fun auction_type =>
    phase <- lift (getitem raw_data auction_type) ;;
    if truthy phase then
      for_ ["imbalance"; "paired"; "price"]
           (on_metric ticker date raw_data auction_type)
    else ret tt).
Proof. reflexivity. Qed.

Lemma on_metric_bundle ticker date b p s acc :
  forall ph, phase_at b p = Some ph ->
  on_metric ticker date (bundle_value b) (phase_name p) (slot_name s) acc =
  (Ok tt, acc ++ group_records ticker date b p s).
Proof.
  intros ph Hph. unfold group_records, series_at. rewrite Hph.
  unfold on_metric, bundle_value, bind, lift.
  destruct p; simpl in Hph; rewrite Hph;
    destruct s; simpl; (destruct (_ ph) as [sd|]; simpl;
      [ | now rewrite app_nil_r ]).
  - apply (for_pairs ticker date Opening Imbalance).
  - apply (for_pairs ticker date Opening Paired).
  - apply (for_pairs ticker date Opening Price).
  - apply (for_pairs ticker date Closing Imbalance).
  - apply (for_pairs ticker date Closing Paired).
  - apply (for_pairs ticker date Closing Price).
Qed.

(** On the value of a bundle the loops return normally and append the
    records of the bundle, group after group. *)
Lemma normalize_bundle ticker date b acc :
  normalize ticker date (bundle_value b) acc =
  (Ok tt, acc ++ bundle_records ticker date b).
Proof.
  rewrite normalize_unfold.
  assert (P : forall p acc,
    bind (lift (getitem (bundle_value b) (phase_name p)))
      (fun phase =>
         if truthy phase then
           for_ ["imbalance"; "paired"; "price"]
                (on_metric ticker date (bundle_value b) (phase_name p))
         else ret tt) acc =
    (Ok tt, acc ++ flat_map (group_records ticker date b p) all_slots)).
  { intros p acc0.
    destruct (phase_at b p) as [ph|] eqn:Hph.
    - assert (T : exists v, getitem (bundle_value b) (phase_name p) = Ok v
                            /\ truthy v = true).
      { destruct p; simpl in Hph; unfold bundle_value; simpl; rewrite Hph;
          eexists; split; reflexivity. }
      destruct T as (v & -> & Tv). unfold bind at 1, lift at 1. rewrite Tv.
      set (f := on_metric ticker date (bundle_value b) (phase_name p)).
      change (for_ ["imbalance"; "paired"; "price"] f acc0)
        with (bind (f (slot_name Imbalance)) (fun _ =>
              bind (f (slot_name Paired)) (fun _ =>
              bind (f (slot_name Price)) (fun _ => ret tt))) acc0).
      subst f. unfold bind at 1.
      rewrite (on_metric_bundle ticker date b p Imbalance acc0 Hph).
      unfold bind at 1.
      rewrite (on_metric_bundle ticker date b p Paired _ Hph).
      unfold bind at 1.
      rewrite (on_metric_bundle ticker date b p Price _ Hph).
      unfold ret. simpl. rewrite app_nil_r, <- !app_assoc. reflexivity.
    - assert (G : forall s, group_records ticker date b p s = []).
      { intros s. unfold group_records, series_at. now rewrite Hph. }
      simpl. rewrite !G. simpl. rewrite app_nil_r.
      destruct p; simpl in Hph; unfold bundle_value, bind, lift; simpl;
        rewrite Hph; reflexivity. }
  simpl for_. unfold bind at 1.
  rewrite (P Opening). unfold bind at 1. rewrite (P Closing).
  unfold bundle_records, ret. simpl flat_map.
  rewrite !app_nil_r, <- !app_assoc. reflexivity.
Qed.

(** ** Counting and locating the records of a bundle *)

Lemma series_records_length ticker date p s sd :
  List.length (series_records ticker date p s sd) =
  Nat.min (List.length (times sd)) (List.length (values sd)).
Proof. unfold series_records. now rewrite length_map, length_combine. Qed.

Lemma group_records_length_aligned ticker date b p s :
  aligned b ->
  List.length (group_records ticker date b p s) =
  match series_at b p s with
  | None => O
  | Some sd => List.length (times sd)
  end.
Proof.
  intros A. unfold group_records.
  destruct (series_at b p s) as [sd|] eqn:Hs; [|reflexivity].
  rewrite series_records_length, (A p s sd Hs). apply Nat.min_id.
Qed.

Lemma bundle_records_length_aligned ticker date b :
  aligned b -> List.length (bundle_records ticker date b) = times_count b.
Proof.
  intros A. unfold bundle_records, times_count. simpl.
  rewrite !length_app, !(group_records_length_aligned ticker date _ _ A).
  simpl. lia.
Qed.

Lemma in_bundle_records ticker date b r :
  In r (bundle_records ticker date b) <->
  exists p s, In r (group_records ticker date b p s).
Proof.
  unfold bundle_records. rewrite in_flat_map. split.
  - intros (p & _ & H). apply in_flat_map in H. destruct H as (s & _ & H). eauto.
  - intros (p & s & H). exists p. split; [destruct p; simpl; auto|].
    apply in_flat_map. exists s. split; [destruct s; simpl; auto | assumption].
Qed.

Lemma in_series_records ticker date p s sd r :
  In r (series_records ticker date p s sd) <->
  exists i t v, nth_error (times sd) i = Some t /\ nth_error (values sd) i = Some v
                /\ r = record_of ticker date p s t v.
Proof.
  unfold series_records. rewrite in_map_iff. split.
  - intros ([t v] & <- & H). apply In_nth_error in H. destruct H as [i H].
    exists i, t, v; simpl. revert i H.
    generalize (times sd) (values sd). intros ts. induction ts as [|t0 ts IH];
      intros vs i H.
    + destruct i; discriminate.
    + destruct vs as [|v0 vs]; [destruct i; discriminate|].
      destruct i; simpl in *.
      * inversion H; subst. auto.
      * destruct (IH vs i H) as (? & ? & ?). auto.
  - intros (i & t & v & Ht & Hv & ->). exists (t, v). split; [reflexivity|].
    revert i Ht Hv. generalize (times sd) (values sd). intros ts.
    induction ts as [|t0 ts IH]; intros vs i Ht Hv.
    + destruct i; discriminate.
    + destruct vs as [|v0 vs]; [destruct i; discriminate|].
      destruct i; simpl in *.
      * inversion Ht; inversion Hv; subst. auto.
      * right. eapply IH; eauto.
Qed.

Lemma nth_error_series_records ticker date p s sd i t v :
  nth_error (times sd) i = Some t -> nth_error (values sd) i = Some v ->
  nth_error (series_records ticker date p s sd) i =
  Some (record_of ticker date p s t v).
Proof.
  unfold series_records. revert i. generalize (times sd) (values sd).
  intros ts. induction ts as [|t0 ts IH]; intros vs i Ht Hv.
  - destruct i; discriminate.
  - destruct vs as [|v0 vs]; [destruct i; discriminate|].
    destruct i; simpl in *.
    + inversion Ht; inversion Hv; subst. reflexivity.
    + now apply IH.
Qed.

Lemma filter_in_group_series ticker date p s p' s' sd :
  filter (in_group p s) (series_records ticker date p' s' sd) =
  if in_group p s (record_of ticker date p' s' "" {| pd_y := 0; pd_label := None |})
  then series_records ticker date p' s' sd else [].
Proof.
  unfold series_records.
  induction (combine (times sd) (values sd)) as [|tv l IH]; simpl.
  - now destruct (in_group _ _ _).
  - rewrite IH. unfold in_group; simpl.
    destruct (_ && _); reflexivity.
Qed.

(** The groups are told apart by phase and metric name. *)
Lemma filter_in_group ticker date b p s :
  filter (in_group p s) (bundle_records ticker date b) =
  group_records ticker date b p s.
Proof.
  assert (G : forall p' s',
    filter (in_group p s) (group_records ticker date b p' s') =
    if in_group p s (record_of ticker date p' s' "" {| pd_y := 0; pd_label := None |})
    then group_records ticker date b p' s' else []).
  { intros p' s'. unfold group_records.
    destruct (series_at b p' s'); [apply filter_in_group_series|].
    now destruct (in_group _ _ _). }
  unfold bundle_records. simpl. rewrite !filter_app, !G.
  destruct p, s; simpl; rewrite ?app_nil_r; reflexivity.
Qed.

Lemma group_records_block ticker date b p s :
  exists before after,
    bundle_records ticker date b =
    before ++ group_records ticker date b p s ++ after.
Proof.
  unfold bundle_records. simpl. rewrite !app_nil_r.
  set (g := group_records ticker date b).
  destruct p, s.
  - exists [], (g Opening Paired ++ g Opening Price ++ g Closing Imbalance
                ++ g Closing Paired ++ g Closing Price).
    simpl. now rewrite <- !app_assoc.
  - exists (g Opening Imbalance), (g Opening Price ++ g Closing Imbalance
                ++ g Closing Paired ++ g Closing Price).
    now rewrite <- !app_assoc.
  - exists (g Opening Imbalance ++ g Opening Paired), (g Closing Imbalance
                ++ g Closing Paired ++ g Closing Price).
    now rewrite <- !app_assoc.
  - exists (g Opening Imbalance ++ g Opening Paired ++ g Opening Price),
      (g Closing Paired ++ g Closing Price).
    now rewrite <- !app_assoc.
  - exists (g Opening Imbalance ++ g Opening Paired ++ g Opening Price
            ++ g Closing Imbalance), (g Closing Price).
    now rewrite <- !app_assoc.
  - exists (g Opening Imbalance ++ g Opening Paired ++ g Opening Price
            ++ g Closing Imbalance ++ g Closing Paired), [].
    now rewrite app_nil_r, <- !app_assoc.
Qed.

(* ------------------------------------------------------------------ *)
(** ** The scraper and the orchestrator *)

Section ScraperFacts.
Context {E : Environment}.
Local Abbreviation state := (state E).

Lemma call_env_spec A c (f : Env E -> result A * Env E) (s : state) :
  exists env', f (env s) = (fst (call_env c f s), env') /\
    snd (call_env c f s) =
    {| env := env'; calls := calls s ++ [c]; log := log s;
       all_data := all_data s |}.
Proof.
  unfold call_env. destruct (f (env s)) as [r env']. eauto.
Qed.

(** [navigate] returns [True] after its three calls, or [False] after
    logging the error; it never touches [all_data]. *)
Lemma navigate_cases url wait_condition additional_wait (s : state) :
  (exists s', navigate url wait_condition additional_wait s = (Ok true, s')
              /\ log s' = log s /\ all_data s' = all_data s
              /\ calls s' = calls s
                   ++ [Call_driver_get url]
                   ++ match wait_condition with
                      | Some c => [Call_wait_until c]
                      | None => []
                      end
                   ++ [Call_time_sleep additional_wait])
  \/ (exists e s', navigate url wait_condition additional_wait s = (Ok false, s')
              /\ log s' = log s ++ [ERROR "Navigation error: " e]
              /\ all_data s' = all_data s).
Proof.
  unfold navigate, try_except, bind, call_env, logger, modify, ret.
  destruct (driver_get E url (env s)) as [[[]|e] env1]; simpl.
  2: { right. eexists _, _. repeat split. }
  destruct wait_condition as [c|]; simpl.
  - destruct (wait_until E c env1) as [[[]|e] env2]; simpl.
    2: { right. eexists _, _. repeat split. }
    destruct (time_sleep E additional_wait env2) as [[[]|e] env3]; simpl.
    2: { right. eexists _, _. repeat split. }
    left. eexists. repeat split. simpl. now rewrite <- !app_assoc.
  - destruct (time_sleep E additional_wait env1) as [[[]|e] env3]; simpl.
    2: { right. eexists _, _. repeat split. }
    left. eexists. repeat split. simpl. now rewrite <- !app_assoc.
Qed.

(** [close] never raises and calls [driver.quit] once. *)
Lemma close_spec (s : state) :
  exists s', close s = (Ok tt, s')
             /\ calls s' = calls s ++ [Call_driver_quit]
             /\ all_data s' = all_data s
             /\ exists r, log s' = log s ++ [r].
Proof.
  unfold close, try_except, bind, call_env, logger, modify.
  destruct (driver_quit E (env s)) as [[[]|e] env1]; simpl;
    eexists; (split; [reflexivity|]); simpl; repeat split; eexists; reflexivity.
Qed.


(** *** The calls a computation adds to the trace *)

Local Abbreviation adds := (@adds E).
Local Abbreviation log_error := (@log_error E).

Lemma adds_ret P A (a : A) : adds P (ret a).
Proof.
  intros s r s' [= <- <-]. exists []. now rewrite app_nil_r.
Qed.

Lemma adds_raise P A e : adds P (@raise state A e).
Proof.
  intros s r s' [= <- <-]. exists []. now rewrite app_nil_r.
Qed.

Lemma adds_lift P A (x : result A) : adds P (@lift state A x).
Proof.
  intros s r s' [= <- <-]. exists []. now rewrite app_nil_r.
Qed.

Lemma adds_gets P A (f : state -> A) : adds P (gets f).
Proof.
  intros s r s' [= <- <-]. exists []. now rewrite app_nil_r.
Qed.

Lemma adds_logger P r : adds P (logger r).
Proof.
  intros s x s' [= <- <-]. exists []. simpl. now rewrite app_nil_r.
Qed.

Lemma adds_on_all_data P A (m : M (list AuctionRecord) A) :
  adds P (on_all_data m).
Proof.
  intros s r s'. unfold on_all_data. destruct (m (all_data s)) as [r0 d].
  intros [= <- <-]. exists []. simpl. now rewrite app_nil_r.
Qed.

Lemma adds_call_env (P : call -> Prop) A c (f : Env E -> result A * Env E) :
  P c -> adds P (call_env c f).
Proof.
  intros Pc s r s'. unfold call_env. destruct (f (env s)) as [r0 env'].
  intros [= <- <-]. exists [c]. simpl. auto.
Qed.

Lemma adds_bind P A B (m : M state A) (k : A -> M state B) :
  adds P m -> (forall a, adds P (k a)) -> adds P (bind m k).
Proof.
  intros Hm Hk s r s'. unfold bind.
  destruct (m s) as [[a|e] s1] eqn:Em.
  - intros Ek. destruct (Hm _ _ _ Em) as (c1 & E1 & F1).
    destruct (Hk a _ _ _ Ek) as (c2 & E2 & F2).
    exists (c1 ++ c2). rewrite E2, E1, app_assoc. split; [reflexivity|].
    apply Forall_app; auto.
  - intros [= <- <-]. eauto.
Qed.

Lemma adds_try_except P A (m : M state A) (h : exn -> M state A) :
  adds P m -> (forall e, adds P (h e)) -> adds P (try_except m h).
Proof.
  intros Hm Hh s r s'. unfold try_except.
  destruct (m s) as [[a|e] s1] eqn:Em.
  - intros [= <- <-]. eauto.
  - intros Eh. destruct (Hm _ _ _ Em) as (c1 & E1 & F1).
    destruct (Hh e _ _ _ Eh) as (c2 & E2 & F2).
    exists (c1 ++ c2). rewrite E2, E1, app_assoc. split; [reflexivity|].
    apply Forall_app; auto.
Qed.

Lemma adds_for P A (xs : list A) (body : A -> M state unit) :
  (forall x, adds P (body x)) -> adds P (for_ xs body).
Proof.
  intros Hb. induction xs as [|x xs IH]; simpl.
  - apply adds_ret.
  - apply adds_bind; auto.
Qed.

Lemma adds_navigate url wc aw : adds not_quit (navigate url wc aw).
Proof.
  unfold navigate. apply adds_try_except.
  - repeat (apply adds_bind; [|intros ?]);
      try (apply adds_call_env; discriminate); try apply adds_ret.
    destruct wc; [apply adds_call_env; discriminate | apply adds_ret].
  - intros e. apply adds_bind; [apply adds_logger | intros; apply adds_ret].
Qed.

Lemma adds_load_raw_data : adds not_quit load_raw_data.
Proof.
  unfold load_raw_data. apply adds_bind.
  - apply adds_call_env. discriminate.
  - intros []; try apply adds_raise. apply adds_lift.
Qed.

Lemma adds_process_pair ticker date : adds not_quit (process_pair ticker date).
Proof.
  unfold process_pair. apply adds_bind; [apply adds_navigate|].
  intros [|]; [|apply adds_logger].
  apply adds_bind; [apply adds_load_raw_data | intros; apply adds_on_all_data].
Qed.

Lemma adds_export : adds not_quit export.
Proof.
  unfold export. apply adds_bind; [apply adds_gets | intros rows].
  apply adds_bind; [apply adds_call_env; discriminate | intros; apply adds_logger].
Qed.

(** *** The loops *)

(** The nested loops visit the cross product, tickers outermost. *)
Lemma for_nested tickers dates s :
  for_ tickers (fun ticker => for_ dates (fun date => process_pair ticker date)) s
  = for_ (list_prod tickers dates) (pair_body E) s.
Proof.
  revert s. induction tickers as [|t tickers IH]; intros s; simpl.
  - reflexivity.
  - rewrite for_app.
    assert (Hd : forall s0, for_ (map (fun y => (t, y)) dates) (pair_body E) s0
                            = for_ dates (fun date => process_pair t date) s0).
    { clear. induction dates as [|d dates IHd]; intros s0; simpl; [reflexivity|].
      unfold bind, pair_body at 1. simpl.
      destruct (process_pair t d s0) as [[[]|e] s1]; auto. }
    rewrite Hd. unfold bind.
    destruct (for_ dates _ s) as [[[]|e] s1]; auto.
Qed.

Lemma for_stops A (body : A -> M state unit) done x rest s0 s1 e s2 :
  for_ done body s0 = (Ok tt, s1) -> body x s1 = (Raise e, s2) ->
  for_ (done ++ x :: rest) body s0 = (Raise e, s2).
Proof.
  intros Hd Hx. rewrite for_app, Hd. simpl. unfold bind. now rewrite Hx.
Qed.

Lemma for_continues A (body : A -> M state unit) done x rest s0 s1 s2 :
  for_ done body s0 = (Ok tt, s1) -> body x s1 = (Ok tt, s2) ->
  for_ (done ++ x :: rest) body s0 = for_ rest body s2.
Proof.
  intros Hd Hx. rewrite for_app, Hd. simpl. unfold bind. now rewrite Hx.
Qed.

(** [scrape] closes the browser after the loops and the export, or after
    logging what interrupted them. *)
Lemma scrape_unfold tickers dates s :
  scrape tickers dates s =
  match bind (for_ (list_prod tickers dates) (pair_body E)) (fun _ => export) s with
  | (Ok _, s1) => close s1
  | (Raise e, s1) => close (log_error e s1)
  end.
Proof.
  unfold scrape, try_finally, try_except.
  replace (bind (for_ tickers _) (fun _ => export) s)
    with (bind (for_ (list_prod tickers dates) (pair_body E)) (fun _ => export) s)
    by (unfold bind; now rewrite for_nested).
  destruct (bind _ _ s) as [[[]|e] s1].
  - destruct (close_spec s1) as (s' & -> & _). reflexivity.
  - unfold logger, modify. fold (log_error e s1).
    destruct (close_spec (log_error e s1)) as (s' & -> & _). reflexivity.
Qed.

End ScraperFacts.

(** *** The records a computation on [all_data] appends *)

Lemma emits_lift P A (x : result A) : emits P (lift x).
Proof.
  intros acc r acc' [= <- <-]. exists []. now rewrite app_nil_r.
Qed.

Lemma emits_ret P A (a : A) : emits P (ret a).
Proof.
  intros acc r acc' [= <- <-]. exists []. now rewrite app_nil_r.
Qed.

Lemma emits_append (P : AuctionRecord -> Prop) r : P r -> emits P (append r).
Proof.
  intros Pr acc x acc' [= <- <-]. exists [r]. auto.
Qed.

Lemma emits_bind P A B (m : M (list AuctionRecord) A) (k : A -> M _ B) :
  emits P m -> (forall a, emits P (k a)) -> emits P (bind m k).
Proof.
  intros Hm Hk acc r acc'. unfold bind.
  destruct (m acc) as [[a|e] acc1] eqn:Em.
  - intros Ek. destruct (Hm _ _ _ Em) as (c1 & E1 & F1).
    destruct (Hk a _ _ _ Ek) as (c2 & E2 & F2).
    exists (c1 ++ c2). rewrite E2, E1, app_assoc. split; [reflexivity|].
    apply Forall_app; auto.
  - intros [= <- <-]. eauto.
Qed.

Lemma emits_for P A (xs : list A) (body : A -> M (list AuctionRecord) unit) :
  (forall x, In x xs -> emits P (body x)) -> emits P (for_ xs body).
Proof.
  induction xs as [|x xs IH]; intros Hb; simpl.
  - apply emits_ret.
  - apply emits_bind; [apply Hb; simpl; auto|].
    intros _. apply IH. intros y Hy. apply Hb. simpl; auto.
Qed.

(** Whatever the input, [normalize] appends records with external metric
    names only. *)
Lemma emits_normalize ticker date raw_data :
  emits external_metric (normalize ticker date raw_data).
Proof.
  unfold normalize. apply emits_for. intros auction_type _.
  apply emits_bind; [apply emits_lift|]. intros phase.
  destruct (truthy phase); [|apply emits_ret].
  apply emits_for. intros metric Hm.
  repeat (apply emits_bind; [apply emits_lift | intros ?]).
  match goal with |- emits _ (if ?c then _ else _) => destruct c end;
    [|apply emits_ret].
  repeat (apply emits_bind; [apply emits_lift | intros ?]).
  apply emits_for. intros [t v] _.
  repeat (apply emits_bind; [apply emits_lift | intros ?]).
  apply emits_append. unfold external_metric. simpl.
  simpl in Hm. destruct Hm as [<- | [<- | [<- | []]]]; auto.
Qed.

Section PairFacts.
Context {E : Environment}.

Lemma navigate_keeps_data url wc aw (s : state E) r s' :
  navigate url wc aw s = (r, s') -> all_data s' = all_data s.
Proof.
  destruct (navigate_cases url wc aw s) as [(s1 & H & _ & D & _) | (e & s1 & H & _ & D)];
    rewrite H; intros [= _ <-]; assumption.
Qed.

Lemma load_raw_data_keeps_data (s : state E) r s' :
  load_raw_data s = (r, s') -> all_data s' = all_data s.
Proof.
  unfold load_raw_data, bind, call_env.
  destruct (driver_execute_script E raw_data_script_text (env s)) as [[v|e] env1].
  - destruct v; intros [= _ <-]; reflexivity.
  - intros [= _ <-]; reflexivity.
Qed.

Lemma process_pair_navigated ticker date (s s1 s2 : state E) raw_data :
  navigate (request_url ticker date) (Some highcharts_ready) 3%Q s = (Ok true, s1) ->
  load_raw_data s1 = (Ok raw_data, s2) ->
  process_pair ticker date s = on_all_data (normalize ticker date raw_data) s2
  /\ all_data s2 = all_data s.
Proof.
  intros Hn Hl. split.
  - unfold process_pair, bind. now rewrite Hn, Hl.
  - rewrite (load_raw_data_keeps_data _ Hl). apply (navigate_keeps_data _ _ _ _ Hn).
Qed.

End PairFacts.

(* ------------------------------------------------------------------ *)
(** ** The in-page script *)

Lemma starts_with_spec search text :
  Js.starts_with search text = true <-> exists post, text = (search ++ post)%string.
Proof.
  revert text. induction search as [|a search IH]; intros text; simpl.
  - split; eauto.
  - destruct text as [|b text].
    + split; [discriminate | intros (post & H); discriminate].
    + rewrite andb_true_iff, Ascii.eqb_eq, IH. split.
      * intros (-> & post & ->). eauto.
      * intros (post & H). inversion H; subst. eauto.
Qed.

Lemma includes_spec text search :
  Js.includes text search = true <->
  exists pre post, text = (pre ++ search ++ post)%string.
Proof.
  induction text as [|c text IH]; simpl.
  - rewrite orb_false_r, starts_with_spec. split.
    + intros (post & H). exists "", post. exact H.
    + intros (pre & post & H). destruct pre; simpl in H; [eauto | discriminate].
  - rewrite orb_true_iff, starts_with_spec, IH. split.
    + intros [(post & H) | (pre & post & H)].
      * exists "", post. exact H.
      * exists (String c pre), post. simpl. now rewrite H.
    + intros (pre & post & H). destruct pre as [|c' pre]; simpl in H.
      * left. eauto.
      * right. inversion H. eauto.
Qed.

Lemma assign_triple o a b c :
  o = [] \/ (exists a0 b0 c0, o = triple a0 b0 c0) ->
  Js.assign (Js.assign (Js.assign o "imbalance" a) "paired" b) "price" c
  = triple a b c.
Proof.
  intros [-> | (a0 & b0 & c0 & ->)]; reflexivity.
Qed.

(** One heading: three charts consumed, the phase of its type rewritten,
    the other phase untouched. *)
Lemma on_header_spec charts rd idx h rd' idx' :
  shaped rd ->
  Js.on_header charts (rd, idx) h = Ok (rd', idx') ->
  idx' = (idx + 3)%nat /\ shaped rd'
  /\ (exists a b c,
        Js.extractSeriesData (nth idx charts None) = Ok a
        /\ Js.extractSeriesData (nth (idx + 1) charts None) = Ok b
        /\ Js.extractSeriesData (nth (idx + 2) charts None) = Ok c
        /\ Js.rd_get rd' (Js.classify h) = triple a b c)
  /\ (forall t, same_type (Js.classify h) t = false ->
                Js.rd_get rd' t = Js.rd_get rd t).
Proof.
  intros Sh. unfold Js.on_header.
  destruct (Js.extractSeriesData (nth idx charts None)) as [a|]; [|discriminate].
  destruct (Js.extractSeriesData (nth (idx + 1) charts None)) as [b|]; [|discriminate].
  destruct (Js.extractSeriesData (nth (idx + 2) charts None)) as [c|]; [|discriminate].
  intros [= <- <-].
  pose proof (assign_triple a b c (Sh (Js.classify h))) as T.
  destruct (Js.classify h); simpl in *; rewrite T.
  - repeat split.
    + intros []; simpl; [right; eauto | apply (Sh Js.closing)].
    + exists a, b, c. auto.
    + intros []; simpl; [discriminate | reflexivity].
  - repeat split.
    + intros []; simpl; [apply (Sh Js.opening) | right; eauto].
    + exists a, b, c. auto.
    + intros []; simpl; [reflexivity | discriminate].
Qed.

Lemma forEach_app charts xs ys st :
  Js.forEach charts (xs ++ ys) st =
  match Js.forEach charts xs st with
  | Ok st' => Js.forEach charts ys st'
  | Raise e => Raise e
  end.
Proof.
  revert st. induction xs as [|x xs IH]; intros st; simpl; [reflexivity|].
  destruct (Js.on_header charts st x); auto.
Qed.

Lemma last_heading_from_snoc i t hs h :
  last_heading_from i t (hs ++ [h]) =
  if same_type (Js.classify h) t then Some (i + List.length hs)%nat
  else last_heading_from i t hs.
Proof.
  revert i. induction hs as [|h0 hs IH]; intros i; simpl.
  - rewrite Nat.add_0_r. now destruct (same_type _ _).
  - rewrite IH. replace (S i + List.length hs)%nat with (i + S (List.length hs))%nat by lia.
    destruct (same_type (Js.classify h) t); reflexivity.
Qed.

Lemma last_heading_from_nth i hs : forall k h,
  nth_error hs k = Some h ->
  last_heading_from i (Js.classify h) (firstn (S k) hs) = Some (i + k)%nat.
Proof.
  revert i. induction hs as [|h0 hs IH]; intros i k h Hk.
  - destruct k; discriminate.
  - destruct k as [|k].
    + simpl in Hk. inversion Hk; subst. simpl.
      replace (i + 0)%nat with i by lia.
      destruct (Js.classify h); reflexivity.
    + simpl in Hk. change (firstn (S (S k)) (h0 :: hs))
        with (h0 :: firstn (S k) hs).
      cbn [last_heading_from]. rewrite (IH (S i) k h Hk).
      f_equal. lia.
Qed.

(** After the headings [hs]: three charts consumed per heading, and each
    phase holds what its last heading was given. *)
Lemma forEach_spec charts hs : forall rd idx,
  Js.forEach charts hs (rawData0, 0%nat) = Ok (rd, idx) ->
  idx = (3 * List.length hs)%nat /\ shaped rd
  /\ forall t, phase_after charts hs rd t.
Proof.
  induction hs as [|h hs IH] using rev_ind; intros rd idx.
  - simpl. intros [= <- <-]. repeat split.
    + intros []; left; reflexivity.
    + intros []; reflexivity.
  - rewrite forEach_app.
    destruct (Js.forEach charts hs (rawData0, 0%nat)) as [[rd1 idx1]|] eqn:E1;
      [|discriminate].
    destruct (IH _ _ eq_refl) as (Hi & Sh & Ph). cbn [Js.forEach].
    destruct (Js.on_header charts (rd1, idx1) h) as [[rd2 idx2]|] eqn:E2;
      [|discriminate].
    intros [= <- <-].
    destruct (on_header_spec _ _ _ Sh E2) as (Hi2 & Sh2 & (a & b & c & Ha & Hb & Hc & Ht) & Ho).
    repeat split.
    + rewrite length_app. simpl. lia.
    + exact Sh2.
    + intros t. unfold phase_after, last_heading.
      rewrite last_heading_from_snoc.
      change (0 + List.length hs)%nat with (List.length hs).
      destruct (same_type (Js.classify h) t) eqn:Et.
      * assert (Js.classify h = t) as <-
          by (destruct (Js.classify h), t; (reflexivity || discriminate)).
        rewrite <- Hi. exists a, b, c. auto.
      * rewrite (Ho t Et). apply Ph.
Qed.

Lemma extractSeriesData_returns chart :
  (forall c, chart = Some c -> Js.xAxis c <> []) ->
  exists v, Js.extractSeriesData chart = Ok v.
Proof.
  intros H. unfold Js.extractSeriesData.
  destruct chart as [c|]; [|eauto].
  destruct (Js.series c) as [[|s0 ss]|]; eauto.
  specialize (H c eq_refl). destruct (Js.xAxis c); [congruence | eauto].
Qed.

Lemma nth_chart_axis (charts : list (option Js.Chart)) i :
  (forall c, In (Some c) charts -> Js.xAxis c <> []) ->
  forall c, nth i charts None = Some c -> Js.xAxis c <> [].
Proof.
  intros H c Hc. apply H. rewrite <- Hc.
  destruct (Nat.lt_ge_cases i (List.length charts)) as [L | G].
  - now apply nth_In.
  - rewrite nth_overflow in Hc by assumption. discriminate.
Qed.

Lemma forEach_returns charts hs :
  (forall i, exists v, Js.extractSeriesData (nth i charts None) = Ok v) ->
  forall st, exists st', Js.forEach charts hs st = Ok st'.
Proof.
  intros H. induction hs as [|h hs IH]; intros [rd idx]; simpl; [eauto|].
  destruct (H idx) as [a ->].
  destruct (H (idx + 1)%nat) as [b ->].
  destruct (H (idx + 2)%nat) as [c ->].
  apply IH.
Qed.

(** On a page whose charts are all plain, the script returns the value of
    a bundle of the data model. *)
Lemma extractSeriesData_plain chart :
  (forall c, chart = Some c -> plain_chart c = true) ->
  exists sd, Js.extractSeriesData chart = Ok (series_value sd).
Proof.
  intros H. unfold Js.extractSeriesData.
  destruct chart as [c|]; [|exists None; reflexivity].
  specialize (H c eq_refl). unfold plain_chart in H.
  destruct (Js.series c) as [[|s0 ss]|]; try (exists None; reflexivity).
  apply andb_true_iff in H. destruct H as [Hx Hp].
  destruct (Js.xAxis c) as [|axis0 rest]; [discriminate|].
  destruct (Js.categories axis0) as [cs|]; [|discriminate].
  assert (V : exists vs, map Js.point_value (Js.points s0) = map point_value vs).
  { clear - Hp. induction (Js.points s0) as [|p ps IH]; [exists []; reflexivity|].
    simpl in Hp. apply andb_true_iff in Hp. destruct Hp as [Hy Hps].
    destruct (IH Hps) as [vs Hvs].
    destruct p as [[n|] l]; [|discriminate].
    exists ({| pd_y := n; pd_label := option_map Js.textStr l |} :: vs).
    simpl. rewrite Hvs. unfold Js.point_value, point_value. simpl.
    destruct l; reflexivity. }
  destruct V as [vs Hvs].
  exists (Some {| times := cs; values := vs |}). simpl. now rewrite Hvs.
Qed.

Lemma nth_plain (charts : list (option Js.Chart)) i :
  (forall c, In (Some c) charts -> plain_chart c = true) ->
  forall c, nth i charts None = Some c -> plain_chart c = true.
Proof.
  intros H c Hc. apply H. rewrite <- Hc.
  destruct (Nat.lt_ge_cases i (List.length charts)) as [L | G].
  - now apply nth_In.
  - rewrite nth_overflow in Hc by assumption. discriminate.
Qed.

Lemma script_output_is_bundle (page : Js.Page) :
  (forall c, In (Some c) (Js.charts page) -> plain_chart c = true) ->
  exists b, Js.raw_data_script page = Ok (bundle_value b).
Proof.
  intros H.
  assert (X : forall i, exists sd,
            Js.extractSeriesData (nth i (Js.charts page) None)
            = Ok (series_value sd))
    by (intros i; apply extractSeriesData_plain, (nth_plain _ i H)).
  assert (R : forall i, exists v,
            Js.extractSeriesData (nth i (Js.charts page) None) = Ok v)
    by (intros i; destruct (X i) as [sd Hsd]; eauto).
  unfold Js.raw_data_script. fold rawData0.
  destruct (@forEach_returns (Js.charts page) (Js.headers page) R (rawData0, 0%nat))
    as [[rd idx] Ef].
  rewrite Ef. destruct (forEach_spec _ _ Ef) as (_ & _ & Ph).
  assert (P : forall t, exists ph, Js.rd_get rd t = match phase_value ph with
                                                     | JObj ms => ms
                                                     | _ => []
                                                     end
                                   /\ JObj (Js.rd_get rd t) = phase_value ph).
  { intros t. specialize (Ph t). unfold phase_after in Ph.
    destruct (last_heading t (Js.headers page)) as [k|].
    - destruct Ph as (a & b & c & Ha & Hb & Hc & Ht).
      destruct (X (3 * k)%nat) as [sa Hsa].
      destruct (X (3 * k + 1)%nat) as [sb Hsb].
      destruct (X (3 * k + 2)%nat) as [sc Hsc].
      rewrite Hsa in Ha. rewrite Hsb in Hb. rewrite Hsc in Hc.
      inversion Ha; inversion Hb; inversion Hc; subst a b c.
      exists (Some {| imbalance := sa; paired := sb; price := sc |}).
      rewrite Ht. split; reflexivity.
    - exists None. rewrite Ph. split; reflexivity. }
  destruct (P Js.opening) as (po & _ & Ho).
  destruct (P Js.closing) as (pc & _ & Hc).
  exists {| opening := po; closing := pc |}.
  unfold Js.rawData_value, bundle_value. simpl in Ho, Hc.
  now rewrite Ho, Hc.
Qed.

(** C6.  A heading is classified as opening exactly when its text contains
    [Opening], letter case included, and as closing otherwise.  Whenever
    the script returns, the heading at position [k] has been given the
    charts at positions [3k], [3k+1] and [3k+2] of the chart list as
    [imbalance], [paired] and [price] of the phase of its type, and the
    value returned holds, for each phase, what the last heading of that
    type was given (nothing if there is none).  The script returns
    whenever every chart has a first axis. *)
Theorem headings_and_triplets (page : Js.Page) :
  (forall header,
     Js.classify header = Js.opening
     <-> exists pre post, header = (pre ++ "Opening" ++ post)%string)
  /\ (forall header,
        Js.classify header = Js.closing
        <-> ~ exists pre post, header = (pre ++ "Opening" ++ post)%string)
  /\ (forall v,
        Js.raw_data_script page = Ok v ->
        (exists rd,
           v = Js.rawData_value rd
           /\ forall t, phase_after (Js.charts page) (Js.headers page) rd t)
        /\ forall k h,
             nth_error (Js.headers page) k = Some h ->
             exists rd_k a b c,
               Js.forEach (Js.charts page) (firstn (S k) (Js.headers page))
                 (rawData0, 0%nat) = Ok (rd_k, (3 * S k)%nat)
               /\ Js.extractSeriesData (nth (3 * k) (Js.charts page) None) = Ok a
               /\ Js.extractSeriesData (nth (3 * k + 1) (Js.charts page) None) = Ok b
               /\ Js.extractSeriesData (nth (3 * k + 2) (Js.charts page) None) = Ok c
               /\ Js.rd_get rd_k (Js.classify h) = triple a b c)
  /\ ((forall c, In (Some c) (Js.charts page) -> Js.xAxis c <> []) ->
      exists v, Js.raw_data_script page = Ok v).
Proof.
  assert (C : forall header,
            Js.classify header = Js.opening
            <-> exists pre post, header = (pre ++ "Opening" ++ post)%string).
  { intros header. rewrite <- includes_spec. unfold Js.classify.
    destruct (Js.includes header "Opening"); split; congruence. }
  split; [exact C|]. split; [|split].
  - intros header. rewrite <- C.
    destruct (Js.classify header); split; congruence.
  - intros v. unfold Js.raw_data_script.
    fold rawData0.
    destruct (Js.forEach (Js.charts page) (Js.headers page) (rawData0, 0%nat))
      as [[rd idx]|] eqn:Ef; [|discriminate].
    intros [= <-]. split.
    + exists rd. split; [reflexivity|].
      apply (forEach_spec _ _ Ef).
    + intros k h Hk.
      assert (Hsplit : Js.headers page
                       = firstn (S k) (Js.headers page) ++ skipn (S k) (Js.headers page))
        by (symmetry; apply firstn_skipn).
      rewrite Hsplit, forEach_app in Ef.
      destruct (Js.forEach (Js.charts page) (firstn (S k) (Js.headers page))
                  (rawData0, 0%nat)) as [[rd_k idx_k]|] eqn:Ek; [|discriminate].
      destruct (forEach_spec _ _ Ek) as (Hi & _ & Ph).
      assert (Hlen : List.length (firstn (S k) (Js.headers page)) = S k).
      { apply firstn_length_le. apply Nat.le_succ_l.
        apply nth_error_Some. congruence. }
      assert (Hlast : last_heading (Js.classify h) (firstn (S k) (Js.headers page))
                      = Some k).
      { apply (last_heading_from_nth 0 _ _ Hk). }
      specialize (Ph (Js.classify h)). unfold phase_after in Ph.
      rewrite Hlast in Ph. destruct Ph as (a & b & c & Ha & Hb & Hc & Ht).
      exists rd_k, a, b, c. rewrite Hi, Hlen. auto.
  - intros H. unfold Js.raw_data_script.
    assert (R : forall i, exists v,
              Js.extractSeriesData (nth i (Js.charts page) None) = Ok v)
      by (intros i; apply extractSeriesData_returns, (nth_chart_axis _ i H)).
    destruct (@forEach_returns (Js.charts page) (Js.headers page) R
                ({| Js.rd_opening := []; Js.rd_closing := [] |}, 0%nat))
      as [[rd idx] ->].
    eauto.
Qed.

(** [headings_and_triplets] on the example page: the second heading, a
    closing one, is given the fourth chart, the destroyed fifth and the
    missing sixth. *)
Lemma headings_and_triplets_witness :
  Js.classify "Opening Auction Imbalance" = Js.opening
  /\ exists rd_k a b,
       Js.forEach (Js.charts example_page) (firstn 2 (Js.headers example_page))
         (rawData0, 0%nat) = Ok (rd_k, 6%nat)
       /\ Js.extractSeriesData (nth 3 (Js.charts example_page) None) = Ok a
       /\ Js.extractSeriesData (nth 4 (Js.charts example_page) None) = Ok b
       /\ Js.extractSeriesData (nth 5 (Js.charts example_page) None) = Ok JNull
       /\ Js.rd_get rd_k Js.closing = triple a b JNull.
Proof.
  destruct (headings_and_triplets example_page) as (Hc & _ & Hs & _).
  split.
  - apply Hc. exists "", " Auction Imbalance". reflexivity.
  - destruct (Hs _ eq_refl) as [_ Hk].
    destruct (Hk 1%nat "Closing Auction Imbalance" eq_refl)
      as (rd_k & a & b & c & H1 & H2 & H3 & H4 & H5).
    assert (Hnull : c = JNull) by (cbv in H4; congruence).
    subst c. exists rd_k, a, b. auto.
Defined.

(* ------------------------------------------------------------------ *)
(** ** The claims on the Python side *)

(** C5.  [navigate] never raises: for every URL, wait condition and settle
    delay, and whatever the environment does, it returns [True] when the
    page load, the readiness wait and the settle delay all return, and
    otherwise returns [False] after logging the error it caught. *)
Theorem navigate_never_raises (E : Environment) (url : string)
    (wait_condition : option Callable) (additional_wait : seconds)
    (s : state E) :
  exists s',
    navigate url wait_condition additional_wait s
    = (Ok (page_settles url wait_condition additional_wait (env s)), s')
    /\ if page_settles url wait_condition additional_wait (env s)
       then log s' = log s
       else exists e, log s' = log s ++ [ERROR "Navigation error: " e].
Proof.
  unfold navigate, page_settles, try_except, bind, call_env, logger, modify, ret.
  destruct (driver_get E url (env s)) as [[[]|e] env1]; simpl.
  2: { eexists. split; [reflexivity|]. simpl. eauto. }
  destruct wait_condition as [c|]; simpl.
  - destruct (wait_until E c env1) as [[[]|e] env2]; simpl.
    2: { eexists. split; [reflexivity|]. simpl. eauto. }
    destruct (time_sleep E additional_wait env2) as [[[]|e] env3]; simpl;
      eexists; (split; [reflexivity|]); simpl; eauto.
  - destruct (time_sleep E additional_wait env1) as [[[]|e] env3]; simpl;
      eexists; (split; [reflexivity|]); simpl; eauto.
Qed.





Lemma process_pair_not_navigated (E : Environment) ticker date (s s1 : state E) :
  navigate (request_url ticker date) (Some highcharts_ready) 3%Q s = (Ok false, s1) ->
  process_pair ticker date s
  = (Ok tt, {| env := env s1; calls := calls s1;
               log := log s1 ++ [WARNING ("Failed to navigate to URL for "
                                          ++ ticker ++ " on " ++ date)%string];
               all_data := all_data s1 |}).
Proof.
  intros H. unfold process_pair, bind. rewrite H. reflexivity.
Qed.

Lemma scrape_returns (E : Environment) tickers dates (s0 : state E) :
  exists s' added,
    scrape tickers dates s0 = (Ok tt, s')
    /\ calls s' = calls s0 ++ added ++ [Call_driver_quit]
    /\ ~ In Call_driver_quit added.
Proof.
  rewrite scrape_unfold.
  assert (A : adds not_quit
                (bind (for_ (list_prod tickers dates) (pair_body E))
                      (fun _ => export))).
  { apply adds_bind; [|intros; apply adds_export].
    apply adds_for. intros [t d]. apply adds_process_pair. }
  destruct (bind _ _ s0) as [[[]|e] s1] eqn:Eb;
    destruct (A _ _ _ Eb) as (cs & Ec & Fc).
  - destruct (close_spec s1) as (s' & -> & Hc & _).
    exists s', cs. rewrite Hc, Ec, <- app_assoc. repeat split.
    intros Hin. rewrite Forall_forall in Fc. now apply (Fc _ Hin).
  - destruct (close_spec (log_error e s1)) as (s' & -> & Hc & _).
    exists s', cs. rewrite Hc. simpl. rewrite Ec, <- app_assoc. repeat split.
    intros Hin. rewrite Forall_forall in Fc. now apply (Fc _ Hin).
Qed.

(** C2, as the code has it.  Part 1: [scrape] (the [try] statement of the
    orchestrator) always returns normally and closes the browser exactly
    once, as its last call.  Part 2: a pair whose navigation returned
    [False] is logged as a warning, adds no record, and the loop goes on.
    Part 3: when the processing of a pair raises (in the extractor or the
    normalizer), the single handler around the loops logs the error and
    the run ends there: after the calls made up to the failure the only
    call is the closing of the browser, so the remaining pairs are not
    visited and nothing is exported.  Part 4: an error of the export is
    caught by the same handler and logged; it does not propagate. *)
Theorem failure_handling (E : Environment) (tickers dates : list string)
    (s0 : state E) :
  (exists s' added,
     scrape tickers dates s0 = (Ok tt, s')
     /\ calls s' = calls s0 ++ added ++ [Call_driver_quit]
     /\ ~ In Call_driver_quit added)
  /\ (forall ticker date rest s s1,
        navigate (request_url ticker date) (Some highcharts_ready) 3%Q s
        = (Ok false, s1) ->
        exists s2,
          process_pair ticker date s = (Ok tt, s2)
          /\ all_data s2 = all_data s
          /\ log s2 = log s1 ++ [WARNING ("Failed to navigate to URL for "
                                          ++ ticker ++ " on " ++ date)%string]
          /\ for_ ((ticker, date) :: rest) (pair_body E) s = for_ rest (pair_body E) s2)
  /\ (forall done ticker date rest s1 e s2,
        list_prod tickers dates = done ++ (ticker, date) :: rest ->
        for_ done (pair_body E) s0 = (Ok tt, s1) ->
        process_pair ticker date s1 = (Raise e, s2) ->
        exists s' closing,
          scrape tickers dates s0 = (Ok tt, s')
          /\ calls s' = calls s2 ++ [Call_driver_quit]
          /\ log s' = log s2 ++ [ERROR "Scraping failed: " e; closing])
  /\ (forall s1 e env',
        for_ (list_prod tickers dates) (pair_body E) s0 = (Ok tt, s1) ->
        to_csv E (all_data s1) (env s1) = (Raise e, env') ->
        exists s' closing,
          scrape tickers dates s0 = (Ok tt, s')
          /\ calls s' = calls s1 ++ [Call_to_csv (all_data s1); Call_driver_quit]
          /\ log s' = log s1 ++ [ERROR "Scraping failed: " e; closing]).
Proof.
  split; [apply scrape_returns|]. split; [|split].
  - intros ticker date rest s s1 Hn.
    pose proof (process_pair_not_navigated ticker date s Hn) as Hp.
    eexists. split; [exact Hp|]. simpl.
    destruct (navigate_cases (request_url ticker date) (Some highcharts_ready)
                3%Q s) as [(s' & Hs & _) | (e & s' & Hs & _ & Hd)];
      rewrite Hn in Hs; inversion Hs; subst s'.
    repeat split; [assumption|].
    simpl. unfold bind, pair_body at 1. simpl. now rewrite Hp.
  - intros done ticker date rest s1 e s2 Hl Hd Hp.
    rewrite scrape_unfold, Hl. unfold bind.
    rewrite (@for_stops E _ (pair_body E) done (ticker, date) rest s0 s1 e s2 Hd Hp).
    destruct (close_spec (log_error e s2)) as (s' & -> & Hc & _ & (r & Hr)).
    exists s', r. simpl in *. rewrite Hc, Hr, <- app_assoc. auto.
  - intros s1 e env' Hl Hx.
    rewrite scrape_unfold. unfold bind. rewrite Hl.
    unfold export, bind, gets, call_env. rewrite Hx.
    match goal with |- context [close ?st] =>
      destruct (close_spec st) as (s' & -> & Hc & _ & (r & Hr)) end.
    exists s', r. simpl in *. rewrite Hc, Hr, <- !app_assoc. auto.
Qed.

(** [failure_handling] on three runs: the readiness wait times out (Part
    2), the in-page script fails on the first of two dates (Part 3), the
    export fails (Part 4). *)
Lemma failure_handling_witness :
  (exists s2,
     process_pair "A" "12-02-2024" (initial_state all_timeouts) = (Ok tt, s2)
     /\ all_data s2 = []
     /\ log s2 = [ERROR "Navigation error: " TimeoutException]
                  ++ [WARNING "Failed to navigate to URL for A on 12-02-2024"])
  /\ (exists s' closing,
        scrape ["A"] ["12-02-2024"; "12-03-2024"] (initial_state script_fails_once)
        = (Ok tt, s')
        /\ calls s' = [Call_driver_get (request_url "A" "12-02-2024");
                       Call_wait_until highcharts_ready;
                       Call_time_sleep 3%Q;
                       Call_driver_execute_script raw_data_script_text]
                      ++ [Call_driver_quit]
        /\ log s' = [] ++ [ERROR "Scraping failed: " JavascriptException; closing])
  /\ (exists s' closing,
        scrape ["A"] [] (initial_state export_fails) = (Ok tt, s')
        /\ calls s' = [] ++ [Call_to_csv []; Call_driver_quit]
        /\ log s' = [] ++ [ERROR "Scraping failed: " OSError; closing]).
Proof.
  split; [|split].
  - destruct (@failure_handling (scripted all_timeouts) ["A"] ["12-02-2024"]
                (initial_state all_timeouts)) as (_ & H & _).
    destruct (H "A" "12-02-2024" [] (initial_state all_timeouts) _ eq_refl)
      as (s2 & H1 & H2 & H3 & _).
    exists s2. repeat split; assumption.
  - destruct (@failure_handling (scripted script_fails_once)
                ["A"] ["12-02-2024"; "12-03-2024"]
                (initial_state script_fails_once)) as (_ & _ & H & _).
    exact (H [] "A" "12-02-2024" [("A", "12-03-2024")]
             (initial_state script_fails_once) JavascriptException _
             eq_refl eq_refl eq_refl).
  - destruct (@failure_handling (scripted export_fails) ["A"] []
                (initial_state export_fails)) as (_ & _ & _ & H).
    exact (H (initial_state export_fails) OSError _ eq_refl eq_refl).
Defined.

(** C2 as stated does not hold.  With two dates and an in-page script that
    fails on the first, the run never loads the page of the second date
    and never exports: the loop did not continue.  With an export that
    raises [OSError], the orchestrator returns normally: the error did not
    propagate. *)
Lemma failure_isolation_counterexample :
  (exists s',
     nyse_auction_scraper_example ["A"] ["12-02-2024"; "12-03-2024"]
       (initial_state script_fails_once) = (Ok tt, s')
     /\ calls s' = [Call_os_makedirs; Call_ChromeDriverManager_install;
                    Call_webdriver_Chrome false;
                    Call_driver_get (request_url "A" "12-02-2024");
                    Call_wait_until highcharts_ready;
                    Call_time_sleep 3%Q;
                    Call_driver_execute_script raw_data_script_text;
                    Call_driver_quit]
     /\ ~ In (Call_driver_get (request_url "A" "12-03-2024")) (calls s'))
  /\ (exists s',
        nyse_auction_scraper_example ["A"] ["12-02-2024"]
          (initial_state export_fails) = (Ok tt, s')
        /\ In (ERROR "Scraping failed: " OSError) (log s')).
Proof.
  split.
  - eexists. split; [vm_compute; reflexivity|]. split; [reflexivity|].
    simpl. intros H.
    repeat (destruct H as [H|H]; [discriminate H|]). exact H.
  - eexists. split; [vm_compute; reflexivity|]. simpl. auto.
Qed.

(** C1.  For a bundle that satisfies the alignment precondition, the
    normalizer returns normally and appends exactly the sum of
    [len(times)] over the present (phase, metric) combinations; so does
    the processing of a request whose navigation succeeded and whose page
    yielded that bundle.  A request whose navigation failed adds no
    record.  A bundle with both phases absent adds no record. *)
Theorem record_count (E : Environment) (ticker date : string)
    (b : RawChartBundle) (A : aligned b) :
  (forall acc, exists recs,
     normalize ticker date (bundle_value b) acc = (Ok tt, acc ++ recs)
     /\ List.length recs = times_count b)
  /\ (forall s s1 s2 : state E,
        navigate (request_url ticker date) (Some highcharts_ready) 3%Q s
        = (Ok true, s1) ->
        load_raw_data s1 = (Ok (bundle_value b), s2) ->
        exists recs s3,
          process_pair ticker date s = (Ok tt, s3)
          /\ all_data s3 = all_data s ++ recs
          /\ List.length recs = times_count b)
  /\ (forall s s1 : state E,
        navigate (request_url ticker date) (Some highcharts_ready) 3%Q s
        = (Ok false, s1) ->
        exists s2, process_pair ticker date s = (Ok tt, s2)
                   /\ all_data s2 = all_data s)
  /\ (opening b = None -> closing b = None ->
      forall acc, normalize ticker date (bundle_value b) acc = (Ok tt, acc)).
Proof.
  split; [|split; [|split]].
  - intros acc. exists (bundle_records ticker date b).
    split; [apply normalize_bundle | now apply bundle_records_length_aligned].
  - intros s s1 s2 Hn Hl.
    destruct (process_pair_navigated ticker date s Hn Hl) as [-> Hd].
    unfold on_all_data. rewrite normalize_bundle.
    eexists _, _. split; [reflexivity|]. simpl. rewrite Hd.
    split; [reflexivity | now apply bundle_records_length_aligned].
  - intros s s1 Hn. rewrite (process_pair_not_navigated ticker date s Hn).
    eexists. split; [reflexivity|]. simpl.
    apply (navigate_keeps_data _ _ _ _ Hn).
  - intros Ho Hc acc. rewrite normalize_bundle.
    unfold bundle_records, group_records, series_at. simpl.
    rewrite Ho, Hc. simpl. now rewrite app_nil_r.
Qed.

Lemma example_bundle_aligned : aligned example_bundle.
Proof.
  intros p s sd. destruct p, s; simpl; intros H; inversion H; reflexivity.
Defined.

Lemma empty_bundle_aligned : aligned empty_bundle.
Proof.
  intros p s sd. destruct p, s; simpl; intros H; inversion H.
Defined.

(** [record_count] on the specification's example bundle, served by a
    browser in which nothing fails; on a browser whose readiness wait
    times out; and on the empty bundle. *)
Lemma record_count_witness :
  (exists recs s3,
     process_pair "A" "12-02-2024" (initial_state all_good) = (Ok tt, s3)
     /\ all_data s3 = [] ++ recs /\ List.length recs = 2%nat)
  /\ (exists s2,
        process_pair "A" "12-02-2024" (initial_state all_timeouts) = (Ok tt, s2)
        /\ all_data s2 = [])
  /\ normalize "A" "12-02-2024" (bundle_value empty_bundle) [] = (Ok tt, []).
Proof.
  split; [|split].
  - destruct (@record_count (scripted all_good) "A" "12-02-2024"
                example_bundle example_bundle_aligned) as (_ & H & _).
    exact (H (initial_state all_good) _ _ eq_refl eq_refl).
  - destruct (@record_count (scripted all_timeouts) "A" "12-02-2024"
                example_bundle example_bundle_aligned) as (_ & _ & H & _).
    exact (H (initial_state all_timeouts) _ eq_refl).
  - destruct (@record_count (scripted all_good) "A" "12-02-2024"
                empty_bundle empty_bundle_aligned) as (_ & _ & _ & H).
    exact (H eq_refl eq_refl []).
Defined.

(** The last scenario of the specification: two records and nothing
    else. *)
Lemma normalize_scenario :
  normalize "A" "12-02-2024" (bundle_value example_bundle) []
  = (Ok tt,
     [ {| symbol := "A"; date := "12-02-2024"; auction_type := "opening";
          metric := "imbalance"; time := JStr "09:28:00";
          value := JNum 1000; label := JStr "1.0K" |};
       {| symbol := "A"; date := "12-02-2024"; auction_type := "opening";
          metric := "imbalance"; time := JStr "09:29:00";
          value := JNum 1200; label := JNull |} ]).
Proof. reflexivity. Qed.

(** Outside the data model the loops can raise: a series without
    [times], as the script returns for an axis that is not categorical,
    ends them with [KeyError]. *)
Lemma normalize_missing_times :
  normalize "A" "12-02-2024"
    (JObj [ ("opening", JObj [ ("imbalance", JObj [("values", JArr [])]);
                               ("paired", JNull); ("price", JNull) ]);
            ("closing", JObj []) ]) []
  = (Raise KeyError, []).
Proof. reflexivity. Qed.

(** C7.  Every record the normalizer emits for a bundle is built from an
    index of a present series, and its metric is the remapped name of that
    series' slot: [imbalance] for imbalance, [paired_quantity] for paired,
    [clearing_price] for price; the slot names [paired] and [price] never
    appear.  On any input at all, well-formed or not, and even when the
    normalizer raises, the metric of every record appended is one of the
    three external names. *)
Theorem metric_remapped (ticker date : string) (b : RawChartBundle)
    (acc : list AuctionRecord) :
  (exists recs,
     normalize ticker date (bundle_value b) acc = (Ok tt, acc ++ recs)
     /\ forall r, In r recs ->
          exists p s sd i t v,
            series_at b p s = Some sd
            /\ nth_error (times sd) i = Some t
            /\ nth_error (values sd) i = Some v
            /\ r = record_of ticker date p s t v
            /\ metric r = remapped s
            /\ metric r <> "paired" /\ metric r <> "price")
  /\ (forall raw_data outcome acc',
        normalize ticker date raw_data acc = (outcome, acc') ->
        exists recs,
          acc' = acc ++ recs
          /\ forall r, In r recs ->
               metric r = "imbalance" \/ metric r = "paired_quantity"
               \/ metric r = "clearing_price").
Proof.
  split.
  - exists (bundle_records ticker date b). split; [apply normalize_bundle|].
    intros r Hr. apply in_bundle_records in Hr. destruct Hr as (p & s & Hr).
    unfold group_records in Hr.
    destruct (series_at b p s) as [sd|] eqn:Hs; [|destruct Hr].
    apply in_series_records in Hr. destruct Hr as (i & t & v & Ht & Hv & ->).
    exists p, s, sd, i, t, v. repeat split; auto;
      destruct s; simpl; first [reflexivity | discriminate].
  - intros raw_data outcome acc' H.
    destruct (@emits_normalize ticker date raw_data _ _ _ H) as (recs & -> & F).
    exists recs. split; [reflexivity|]. now apply Forall_forall.
Qed.

(** [metric_remapped] on the ragged bundle: its records come from the
    [paired] slot and are named [paired_quantity]. *)
Lemma metric_remapped_witness :
  exists recs,
    normalize "WFC" "12-03-2024" (bundle_value ragged_bundle) []
    = (Ok tt, [] ++ recs)
    /\ Forall (fun r => metric r = "paired_quantity") recs.
Proof.
  destruct (metric_remapped "WFC" "12-03-2024" ragged_bundle [])
    as ((recs & Hn & Hr) & _).
  exists recs. split; [exact Hn|].
  apply Forall_forall. intros r Hin.
  destruct (Hr r Hin) as (p & s & sd & i & t & v & Hs & _ & _ & _ & Hm & _).
  rewrite Hm.
  destruct p, s; cbv in Hs; first [discriminate Hs | reflexivity].
Defined.

(** C8.  For every present (phase, metric) series of a bundle, the records
    built from it occupy consecutive places of the output in index order:
    there is an offset such that the record of index [i] stands at place
    [offset + i], hence before the record of index [i + 1]. *)
Theorem index_order_kept (ticker date : string) (b : RawChartBundle)
    (p : phase) (s : slot) (sd : SeriesData) (acc : list AuctionRecord)
    (present : series_at b p s = Some sd) :
  exists recs offset,
    normalize ticker date (bundle_value b) acc = (Ok tt, acc ++ recs)
    /\ forall i t v,
         nth_error (times sd) i = Some t ->
         nth_error (values sd) i = Some v ->
         nth_error recs (offset + i) = Some (record_of ticker date p s t v).
Proof.
  destruct (group_records_block ticker date b p s) as (before & after & Hb).
  exists (bundle_records ticker date b), (List.length before).
  split; [apply normalize_bundle|].
  intros i t v Ht Hv. rewrite Hb.
  rewrite nth_error_app2 by lia.
  replace (List.length before + i - List.length before)%nat with i by lia.
  unfold group_records. rewrite present.
  rewrite nth_error_app1.
  - now apply nth_error_series_records.
  - rewrite series_records_length.
    apply Nat.min_glb_lt; apply nth_error_Some; congruence.
Qed.

(** [index_order_kept] on the example bundle: its two records, in index
    order. *)
Lemma index_order_kept_witness :
  exists recs offset,
    normalize "A" "12-02-2024" (bundle_value example_bundle) []
    = (Ok tt, [] ++ recs)
    /\ nth_error recs (offset + 0)
       = Some (record_of "A" "12-02-2024" Opening Imbalance "09:28:00"
                 {| pd_y := 1000; pd_label := Some "1.0K" |})
    /\ nth_error recs (offset + 1)
       = Some (record_of "A" "12-02-2024" Opening Imbalance "09:29:00"
                 {| pd_y := 1200; pd_label := None |}).
Proof.
  destruct (@index_order_kept "A" "12-02-2024" example_bundle Opening Imbalance
              example_series [] eq_refl) as (recs & offset & Hn & Hi).
  exists recs, offset. split; [exact Hn|]. split.
  - exact (Hi 0%nat _ _ eq_refl eq_refl).
  - exact (Hi 1%nat _ _ eq_refl eq_refl).
Defined.

Lemma combine_firstn_min (A B : Type) (l : list A) (l' : list B) :
  combine l l'
  = combine (firstn (Nat.min (List.length l) (List.length l')) l)
            (firstn (Nat.min (List.length l) (List.length l')) l').
Proof.
  rewrite <- combine_firstn, firstn_all2; [reflexivity|].
  now rewrite length_combine.
Qed.

(** C9.  A present series whose [times] and [values] differ in length does
    not make the normalizer fail: it returns normally.  With [k] the
    smaller of the two lengths, the records of that (phase, metric) group
    in its output are those built from the first [k] times and the first
    [k] values, index by index and in that order: there are [k] of them,
    the one at place [i] pairs [times[i]] with [values[i]], and the items
    of the longer sequence from index [k] on give no record. *)
Theorem ragged_series_truncated (ticker date : string) (b : RawChartBundle)
    (p : phase) (s : slot) (sd : SeriesData) (acc : list AuctionRecord)
    (present : series_at b p s = Some sd)
    (ragged : List.length (times sd) <> List.length (values sd)) :
  let k := Nat.min (List.length (times sd)) (List.length (values sd)) in
  exists recs,
    normalize ticker date (bundle_value b) acc = (Ok tt, acc ++ recs)
    /\ filter (in_group p s) recs
       = map (fun tv => record_of ticker date p s (fst tv) (snd tv))
             (combine (firstn k (times sd)) (firstn k (values sd)))
    /\ List.length (filter (in_group p s) recs) = k
    /\ (forall i t v,
          nth_error (times sd) i = Some t ->
          nth_error (values sd) i = Some v ->
          nth_error (filter (in_group p s) recs) i
          = Some (record_of ticker date p s t v))
    /\ (forall i, (k <= i)%nat ->
                  nth_error (filter (in_group p s) recs) i = None).
Proof.
  intros k.
  exists (bundle_records ticker date b). split; [apply normalize_bundle|].
  rewrite filter_in_group. unfold group_records. rewrite present.
  split; [|split; [|split]].
  - unfold series_records, k. now rewrite <- combine_firstn_min.
  - apply series_records_length.
  - intros i t v Ht Hv. now apply nth_error_series_records.
  - intros i Hi. apply nth_error_None.
    rewrite series_records_length. exact Hi.
Qed.

(** [ragged_series_truncated] on three times and two values: the two
    records pair the first two times with the two values, and the third
    time gives none. *)
Lemma ragged_series_truncated_witness :
  exists recs,
    normalize "WFC" "12-03-2024" (bundle_value ragged_bundle) []
    = (Ok tt, [] ++ recs)
    /\ filter (in_group Closing Paired) recs
       = [ record_of "WFC" "12-03-2024" Closing Paired "15:50:00"
             {| pd_y := 250; pd_label := None |};
           record_of "WFC" "12-03-2024" Closing Paired "15:55:00"
             {| pd_y := 300; pd_label := Some "300" |} ]
    /\ nth_error (filter (in_group Closing Paired) recs) 2 = None.
Proof.
  destruct (@ragged_series_truncated "WFC" "12-03-2024" ragged_bundle Closing
              Paired ragged_series [] eq_refl)
    as (recs & Hn & Hf & _ & _ & Hnone).
  - simpl. discriminate.
  - exists recs. split; [exact Hn|]. split; [exact Hf|].
    apply Hnone. simpl. apply le_n.
Defined.

(* ------------------------------------------------------------------ *)
(** ** The claims on the date range *)

(** C3, as the code has it.  [get_weekdays] always returns or raises.  It
    raises [ValueError], the one kind of error date parsing has, exactly
    when the start date or the end date does not parse as MM-DD-YYYY.
    When both parse and the end date lies before the start date it does
    not fail: it returns the empty list.  An error of [get_weekdays]
    leaves [main] before anything is done to the environment. *)
Theorem date_range_errors (E : Environment) (start_date end_date : string) :
  (exists outcome, get_weekdays start_date end_date = Some outcome)
  /\ (forall e, strptime start_date = Raise e \/ strptime end_date = Raise e ->
                e = ValueError)
  /\ (get_weekdays start_date end_date = Some (Raise ValueError)
      <-> strptime start_date = Raise ValueError
          \/ strptime end_date = Raise ValueError)
  /\ (forall start end_,
        strptime start_date = Ok start -> strptime end_date = Ok end_ ->
        cmp end_ start = Lt ->
        get_weekdays start_date end_date = Some (Ok []))
  /\ (forall e tickers (s : state E),
        get_weekdays start_date end_date = Some (Raise e) ->
        exists run, main_with tickers start_date end_date = Some run
                    /\ run s = (Raise e, s)).
Proof.
  split; [apply get_weekdays_terminates|]. split; [|split; [|split]].
  - intros e [H | H]; now apply strptime_raise in H.
  - split.
    + destruct (strptime start_date) as [start|e] eqn:Hs.
      * destruct (strptime end_date) as [end_|e] eqn:He.
        -- rewrite (get_weekdays_parsed _ _ Hs He).
           destruct (_ <? _)%Z; [discriminate|].
           destruct (_ =? _)%Z; discriminate.
        -- rewrite (strptime_raise _ He). auto.
      * rewrite (strptime_raise _ Hs). auto.
    + unfold get_weekdays. intros [H | H].
      * now rewrite H.
      * destruct (strptime start_date) as [start|e] eqn:Hs.
        -- now rewrite H.
        -- now rewrite (strptime_raise _ Hs).
  - intros start end_ Hs He Hlt.
    rewrite (get_weekdays_parsed _ _ Hs He).
    rewrite toordinal_cmp in Hlt
      by (eapply strptime_valid; eassumption).
    apply Z.compare_lt_iff in Hlt.
    now replace (toordinal end_ <? toordinal start)%Z with true
      by (symmetry; now apply Z.ltb_lt).
  - intros e tickers s H. unfold main_with. rewrite H.
    eexists. split; reflexivity.
Qed.

(** [date_range_errors] on an inverted range and on a month that does not
    exist. *)
Lemma date_range_errors_witness :
  get_weekdays "12-05-2024" "12-01-2024" = Some (Ok [])
  /\ forall s : state (scripted all_good),
       exists run, main_with ["A"] "13-01-2024" "12-05-2024" = Some run
                   /\ run s = (Raise ValueError, s).
Proof.
  destruct (date_range_errors (scripted all_good) "12-05-2024" "12-01-2024")
    as (_ & _ & _ & H & _).
  split.
  - exact (H _ _ eq_refl eq_refl eq_refl).
  - intros s.
    destruct (date_range_errors (scripted all_good) "13-01-2024" "12-05-2024")
      as (_ & _ & [_ Hv] & _ & Hm).
    exact (Hm ValueError ["A"] s (Hv (or_introl eq_refl))).
Defined.

(** C3 as stated does not hold: an end date before the start date is not
    an error, the result is the empty list; and an end date that does not
    parse is an error although the start date parses. *)
Lemma inverted_range_counterexample :
  get_weekdays "12-05-2024" "12-01-2024" = Some (Ok [])
  /\ strptime "12-01-2024"
     = Ok {| year := 2024; month := 12; day := 1 |}
  /\ get_weekdays "12-01-2024" "12-32-2024" = Some (Raise ValueError).
Proof. repeat split; vm_compute; reflexivity. Qed.

(** C4 at the last date [datetime] can represent, a Friday: advancing
    [current] past it raises [OverflowError], so the call fails where the
    claim has it return that one date; on the day before, the result is
    as claimed. *)
Theorem last_day_overflows :
  strptime "12-31-9999" = Ok {| year := 9999; month := 12; day := 31 |}
  /\ weekday {| year := 9999; month := 12; day := 31 |} = 4%Z
  /\ get_weekdays "12-31-9999" "12-31-9999" = Some (Raise OverflowError)
  /\ get_weekdays "12-30-9999" "12-30-9999" = Some (Ok ["12-30-9999"]).
Proof. repeat split; vm_compute; reflexivity. Qed.

(** The two scenarios of the specification for the date range expander. *)
Lemma get_weekdays_scenarios :
  get_weekdays "12-02-2024" "12-02-2024" = Some (Ok ["12-02-2024"])
  /\ get_weekdays "12-07-2024" "12-08-2024" = Some (Ok [])
  /\ get_weekdays "12-01-2024" "12-05-2024"
     = Some (Ok ["12-02-2024"; "12-03-2024"; "12-04-2024"; "12-05-2024"]).
Proof. repeat split; vm_compute; reflexivity. Qed.

(* ================================================================== *)
(** * Further properties *)

(* ------------------------------------------------------------------ *)
(** ** Further properties of [get_weekdays] *)

Section DateRanges.
Local Open Scope Z_scope.

(** [get_weekdays_in_range] on the range of [main]. *)
Lemma get_weekdays_in_range_witness :
  exists days,
    get_weekdays "12-01-2024" "12-05-2024" = Some (Ok (map strftime days))
    /\ (forall d, In d days <->
                  valid_date d
                  /\ DateTime.le {| year := 2024; month := 12; day := 1 |} d = true
                  /\ DateTime.le d {| year := 2024; month := 12; day := 5 |} = true
                  /\ weekday d < 5)
    /\ StronglySorted earlier days.
Proof.
  apply (@get_weekdays_in_range "12-01-2024" "12-05-2024" _ _ eq_refl eq_refl).
  - reflexivity.
  - intros H. vm_compute in H. discriminate H.
Defined.

(** A range that ends on the last day [datetime] can represent, whatever
    its start, makes [get_weekdays] raise [OverflowError]: no list is
    returned. *)
Theorem get_weekdays_last_day start_date end_date start :
  strptime start_date = Ok start ->
  strptime end_date = Ok last_day ->
  get_weekdays start_date end_date = Some (Raise OverflowError).
Proof.
  intros Hs He. rewrite (get_weekdays_parsed _ _ Hs He).
  pose proof (toordinal_range (strptime_valid _ Hs)) as R.
  change (toordinal last_day) with MAXORDINAL.
  replace (MAXORDINAL <? toordinal start) with false
    by (symmetry; apply Z.ltb_ge; lia).
  now rewrite Z.eqb_refl.
Qed.

Lemma get_weekdays_last_day_witness :
  get_weekdays "01-01-0001" "12-31-9999" = Some (Raise OverflowError).
Proof.
  exact (@get_weekdays_last_day "01-01-0001" "12-31-9999" _ eq_refl eq_refl).
Defined.

Lemma ordinals_app lo k1 k2 :
  ordinals lo (k1 + k2) = ordinals lo k1 ++ ordinals (lo + Z.of_nat k1) k2.
Proof.
  revert lo. induction k1 as [|k1 IH]; intros lo.
  - simpl. now rewrite Z.add_0_r.
  - change (S k1 + k2)%nat with (S (k1 + k2)). rewrite !ordinals_S, IH.
    simpl. do 3 f_equal. lia.
Qed.

Lemma weekdays_from_app lo k1 k2 :
  weekdays_from lo (k1 + k2)
  = weekdays_from lo k1 ++ weekdays_from (lo + Z.of_nat k1) k2.
Proof.
  unfold weekdays_from. now rewrite ordinals_app, map_app, filter_app.
Qed.

(** Adjacent ranges compose: when [next] is the day after [middle], the
    weekdays from [first] to [last] are those from [first] to [middle]
    followed by those from [next] to [last]. *)
Theorem get_weekdays_concat first middle next last t_first t_middle t_next t_last :
  strptime first = Ok t_first -> strptime middle = Ok t_middle ->
  strptime next = Ok t_next -> strptime last = Ok t_last ->
  DateTime.le t_first t_middle = true ->
  add_days t_middle 1 = Ok t_next ->
  DateTime.le t_next t_last = true ->
  t_last <> last_day ->
  exists l1 l2,
    get_weekdays first middle = Some (Ok l1)
    /\ get_weekdays next last = Some (Ok l2)
    /\ get_weekdays first last = Some (Ok (l1 ++ l2)).
Proof.
  intros Hf Hm Hn Hl L1 Hadd L2 Hend.
  pose proof (strptime_valid _ Hf) as Vf. pose proof (strptime_valid _ Hm) as Vm.
  pose proof (strptime_valid _ Hn) as Vn. pose proof (strptime_valid _ Hl) as Vl.
  pose proof (toordinal_range Vf) as Rf. pose proof (toordinal_range Vm) as Rm.
  pose proof (toordinal_range Vn) as Rn. pose proof (toordinal_range Vl) as Rl.
  rewrite le_toordinal in L1, L2 by assumption. apply Z.leb_le in L1, L2.
  assert (Hmax : toordinal t_last <> MAXORDINAL).
  { intros H. apply Hend. apply toordinal_inj; [assumption | | exact H].
    repeat split; vm_compute; congruence. }
  assert (En : toordinal t_next = toordinal t_middle + 1).
  { unfold add_days in Hadd.
    destruct ((0 <? toordinal t_middle + 1)
              && (toordinal t_middle + 1 <=? MAXORDINAL)) eqn:C;
      [|discriminate].
    apply andb_true_iff in C. destruct C as [_ C]. apply Z.leb_le in C.
    inversion Hadd.
    now destruct (@ord2ymd_correct (toordinal t_middle + 1) ltac:(lia)). }
  rewrite (get_weekdays_parsed _ _ Hf Hm), (get_weekdays_parsed _ _ Hn Hl),
    (get_weekdays_parsed _ _ Hf Hl).
  repeat match goal with
         | |- context [?a <? ?b] =>
             replace (a <? b) with false by (symmetry; apply Z.ltb_ge; lia)
         | |- context [?a =? MAXORDINAL] =>
             replace (a =? MAXORDINAL) with false
               by (symmetry; apply Z.eqb_neq; lia)
         end.
  eexists _, _. split; [reflexivity|]. split; [reflexivity|].
  rewrite <- map_app. do 3 f_equal.
  replace (Z.to_nat (toordinal t_last - toordinal t_first + 1))
    with (Z.to_nat (toordinal t_middle - toordinal t_first + 1)
          + Z.to_nat (toordinal t_last - toordinal t_next + 1))%nat by lia.
  rewrite weekdays_from_app. do 2 f_equal. lia.
Qed.

Lemma get_weekdays_concat_witness :
  exists l1 l2,
    get_weekdays "11-25-2024" "11-30-2024" = Some (Ok l1)
    /\ get_weekdays "12-01-2024" "12-05-2024" = Some (Ok l2)
    /\ get_weekdays "11-25-2024" "12-05-2024" = Some (Ok (l1 ++ l2)).
Proof.
  apply (@get_weekdays_concat "11-25-2024" "11-30-2024" "12-01-2024" "12-05-2024"
           _ _ _ _ eq_refl eq_refl eq_refl eq_refl);
    try reflexivity.
  intros H. discriminate H.
Defined.

Lemma weekday_fromordinal o :
  1 <= o <= MAXORDINAL -> weekday (fromordinal o) = (o + 6) mod 7.
Proof.
  intros H. unfold weekday, fromordinal.
  destruct (ord2ymd_correct H) as [_ E]. now rewrite E.
Qed.

Lemma week_has_five_weekdays lo :
  1 <= lo -> lo + 6 <= MAXORDINAL ->
  List.length (weekdays_from lo 7) = 5%nat.
Proof.
  intros H1 H2.
  assert (W : forall i, 0 <= i <= 6 ->
            is_weekday (fromordinal (lo + i)) = ((lo mod 7 + i + 6) mod 7 <? 5)).
  { intros i Hi. unfold is_weekday. rewrite weekday_fromordinal by lia.
    f_equal. Z.div_mod_to_equations. lia. }
  unfold weekdays_from, ordinals. cbn [seq map Z.of_nat Pos.of_succ_nat Pos.succ].
  cbn [filter]. rewrite !W by lia.
  assert (R : lo mod 7 = 0 \/ lo mod 7 = 1 \/ lo mod 7 = 2 \/ lo mod 7 = 3
              \/ lo mod 7 = 4 \/ lo mod 7 = 5 \/ lo mod 7 = 6)
    by (pose proof (Z.mod_pos_bound lo 7); lia).
  repeat (destruct R as [R | R]; [rewrite R; reflexivity|]).
  rewrite R. reflexivity.
Qed.

Lemma weeks_have_five_weekdays k : forall lo,
  1 <= lo -> lo + 7 * Z.of_nat k - 1 <= MAXORDINAL ->
  List.length (weekdays_from lo (7 * k)) = (5 * k)%nat.
Proof.
  induction k as [|k IH]; intros lo H1 H2.
  - reflexivity.
  - replace (7 * S k)%nat with (7 + 7 * k)%nat by lia.
    rewrite weekdays_from_app, length_app, week_has_five_weekdays, IH by lia.
    lia.
Qed.

(** A range of whole weeks yields five dates a week: when the number of
    days from start to end, both included, is [7 k], the list returned
    has [5 k] entries, wherever in the week the range starts. *)
Theorem get_weekdays_whole_weeks start_date end_date start end_ k :
  strptime start_date = Ok start -> strptime end_date = Ok end_ ->
  end_ <> last_day ->
  toordinal end_ - toordinal start + 1 = 7 * Z.of_nat k ->
  exists l, get_weekdays start_date end_date = Some (Ok l)
            /\ List.length l = (5 * k)%nat.
Proof.
  intros Hs He Hend Hk.
  pose proof (strptime_valid _ Hs) as Vs. pose proof (strptime_valid _ He) as Ve.
  pose proof (toordinal_range Vs) as Rs. pose proof (toordinal_range Ve) as Re.
  assert (Hmax : toordinal end_ <> MAXORDINAL).
  { intros H. apply Hend. apply toordinal_inj; [assumption | | exact H].
    repeat split; vm_compute; congruence. }
  rewrite (get_weekdays_parsed _ _ Hs He).
  destruct (Z.ltb_spec (toordinal end_) (toordinal start)) as [L | G].
  - exists []. split; [reflexivity|]. simpl. lia.
  - replace (toordinal end_ =? MAXORDINAL) with false
      by (symmetry; now apply Z.eqb_neq).
    eexists. split; [reflexivity|].
    rewrite length_map, Hk.
    replace (Z.to_nat (7 * Z.of_nat k)) with (7 * k)%nat by lia.
    apply weeks_have_five_weekdays; lia.
Qed.

Lemma get_weekdays_whole_weeks_witness :
  exists l, get_weekdays "12-04-2024" "12-17-2024" = Some (Ok l)
            /\ List.length l = (5 * 2)%nat.
Proof.
  apply (@get_weekdays_whole_weeks "12-04-2024" "12-17-2024" _ _ 2
           eq_refl eq_refl).
  - intros H. discriminate H.
  - reflexivity.
Defined.

(** *** Reading back what [strftime] writes *)

Lemma format_regex_paths_unfold s :
  format_regex_paths s =
  flat_map (fun '(m, s1) => flat_map (fun s2 => paths_d m s2) (literal "-" s1))
           (alternatives re_m s).
Proof. reflexivity. Qed.

Lemma digit_char_cases k :
  exists n, (n < 10)%nat /\ k mod 10 = Z.of_nat n.
Proof.
  exists (Z.to_nat (k mod 10)). pose proof (Z.mod_pos_bound k 10). lia.
Qed.

Lemma digit_digit_char k : digit (digit_char k) = true.
Proof.
  unfold digit_char. destruct (digit_char_cases k) as (n & Hn & ->).
  rewrite Nat2Z.id.
  do 10 (destruct n as [|n]; [reflexivity|]). lia.
Qed.

Lemma digit_char_value k :
  Z.of_nat (nat_of_ascii (digit_char k) - 48) = k mod 10.
Proof.
  unfold digit_char. destruct (digit_char_cases k) as (n & Hn & ->).
  rewrite Nat2Z.id.
  do 10 (destruct n as [|n]; [reflexivity|]). lia.
Qed.

Lemma paths_month (n : nat) rest :
  (1 <= n <= 12)%nat ->
  format_regex_paths (pad2 (Z.of_nat n) ++ "-" ++ rest)
  = paths_d (pad2 (Z.of_nat n)) rest.
Proof.
  intros H. rewrite format_regex_paths_unfold.
  do 13 (destruct n as [|n];
         [try lia; cbv -[paths_d];
          repeat (refine (eq_trans (app_nil_r _) _)); reflexivity|]).
  lia.
Qed.

Lemma paths_day (n : nat) m rest :
  (1 <= n <= 31)%nat ->
  paths_d m (pad2 (Z.of_nat n) ++ "-" ++ rest)
  = paths_Y m (pad2 (Z.of_nat n)) rest.
Proof.
  intros H. unfold paths_d.
  do 32 (destruct n as [|n];
         [try lia; cbv -[paths_Y];
          repeat (refine (eq_trans (app_nil_r _) _)); reflexivity|]).
  lia.
Qed.

Lemma paths_year y m d :
  paths_Y m d (pad4 y) = [(m, d, pad4 y, "")].
Proof.
  unfold paths_Y, alternatives, re_Y, pad4. cbn [flat_map match_seq].
  rewrite !digit_digit_char. reflexivity.
Qed.

Lemma int_pad4 y : 0 <= y <= 9999 -> int (pad4 y) = y.
Proof.
  intros H. unfold int, pad4. cbn [int_digits].
  rewrite !digit_digit_char, !digit_char_value.
  Z.div_mod_to_equations. lia.
Qed.

Lemma int_pad2 n : 0 <= n <= 99 -> int (pad2 n) = n.
Proof.
  intros H. unfold int, pad2. cbn [int_digits].
  rewrite !digit_digit_char, !digit_char_value.
  Z.div_mod_to_equations. lia.
Qed.

Lemma check_date_fields_ok t :
  valid_date t -> check_date_fields (year t) (month t) (day t) = Ok t.
Proof.
  intros (Hy & Hm & Hd). unfold check_date_fields, MINYEAR, MAXYEAR.
  replace ((1 <=? year t) && (year t <=? 9999)) with true
    by (symmetry; apply andb_true_iff; rewrite !Z.leb_le; lia).
  replace ((1 <=? month t) && (month t <=? 12)) with true
    by (symmetry; apply andb_true_iff; rewrite !Z.leb_le; lia).
  replace ((1 <=? day t) && (day t <=? days_in_month (year t) (month t)))
    with true by (symmetry; apply andb_true_iff; rewrite !Z.leb_le; lia).
  destruct t; reflexivity.
Qed.

Lemma days_in_month_le_31 y m : days_in_month y m <= 31.
Proof.
  unfold days_in_month, index.
  destruct ((m =? 2) && is_leap y); [lia|].
  destruct (Z.to_nat m) as [|n]; [simpl; lia|].
  do 12 (destruct n as [|n]; [simpl; lia|]).
  simpl. destruct n; lia.
Qed.

(** [strptime] reads back every date [strftime] writes, in the format the
    two share. *)
Lemma strptime_strftime t :
  valid_date t -> 1000 <= year t -> strptime (strftime t) = Ok t.
Proof.
  intros V _. pose proof V as (Hy & Hm & Hd).
  pose proof (days_in_month_le_31 (year t) (month t)) as H31.
  unfold strptime, format_regex_match, strftime.
  replace (month t) with (Z.of_nat (Z.to_nat (month t))) at 1 by lia.
  rewrite paths_month by lia.
  replace (day t) with (Z.of_nat (Z.to_nat (day t))) at 1 by lia.
  rewrite paths_day by lia.
  rewrite paths_year. cbn [hd_error].
  rewrite !Z2Nat.id by lia.
  rewrite int_pad4, !int_pad2 by lia.
  now apply check_date_fields_ok.
Qed.

Lemma le_year a b : DateTime.le a b = true -> year a <= year b.
Proof.
  unfold DateTime.le, cmp.
  destruct (Z.compare_spec (year a) (year b)); intros Hc; first [lia | discriminate Hc].
Qed.

(** Every string [get_weekdays] returns for a range that starts in year
    1000 or later is itself a date in the format of the arguments: it
    parses, to a Monday-to-Friday date of the range, and is the text
    [strftime] gives that date. *)
Theorem get_weekdays_output_parses start_date end_date start end_ l :
  strptime start_date = Ok start -> strptime end_date = Ok end_ ->
  1000 <= year start ->
  get_weekdays start_date end_date = Some (Ok l) ->
  forall x, In x l ->
    exists d, strptime x = Ok d /\ strftime d = x
              /\ DateTime.le start d = true /\ DateTime.le d end_ = true
              /\ weekday d < 5.
Proof.
  intros Hs He Hy Hg x Hx.
  pose proof (strptime_valid _ Hs) as Vs. pose proof (strptime_valid _ He) as Ve.
  pose proof (toordinal_range Vs) as Rs. pose proof (toordinal_range Ve) as Re.
  rewrite (get_weekdays_parsed _ _ Hs He) in Hg.
  destruct (Z.ltb_spec (toordinal end_) (toordinal start)) as [L | G].
  { inversion Hg; subst l. destruct Hx. }
  destruct (Z.eqb_spec (toordinal end_) MAXORDINAL) as [M | M]; [discriminate|].
  inversion Hg; subst l. apply in_map_iff in Hx. destruct Hx as (d & <- & Hd).
  apply in_weekdays_from in Hd; try lia. destruct Hd as (Vd & Hr & Hw).
  assert (L1 : DateTime.le start d = true)
    by (rewrite le_toordinal by assumption; apply Z.leb_le; lia).
  assert (L2 : DateTime.le d end_ = true)
    by (rewrite le_toordinal by assumption; apply Z.leb_le; lia).
  exists d. repeat split; try assumption.
  apply strptime_strftime; [assumption|]. apply le_year in L1. lia.
Qed.

Lemma get_weekdays_output_parses_witness :
  exists d, strptime "12-04-2024" = Ok d /\ strftime d = "12-04-2024"
            /\ DateTime.le {| year := 2024; month := 12; day := 1 |} d = true
            /\ DateTime.le d {| year := 2024; month := 12; day := 5 |} = true
            /\ weekday d < 5.
Proof.
  apply (@get_weekdays_output_parses "12-01-2024" "12-05-2024" _ _
           ["12-02-2024"; "12-03-2024"; "12-04-2024"; "12-05-2024"]
           eq_refl eq_refl).
  - vm_compute. discriminate.
  - vm_compute. reflexivity.
  - simpl. auto.
Defined.

End DateRanges.

(* ------------------------------------------------------------------ *)
(** ** Further properties of the scraper and the orchestrator *)

(** [close] never raises, whatever [driver.quit] does: it calls it once,
    logs its success as INFO or its error as ERROR, and leaves the
    collected records as they are. *)
Theorem close_releases (E : Environment) (s : state E) :
  exists s',
    close s = (Ok tt, s')
    /\ calls s' = calls s ++ [Call_driver_quit]
    /\ all_data s' = all_data s
    /\ log s' = log s ++ [match fst (driver_quit E (env s)) with
                          | Ok _ => INFO "WebDriver closed successfully"
                          | Raise e => ERROR "Error closing WebDriver: " e
                          end].
Proof.
  unfold close, try_except, bind, call_env, logger, modify.
  destruct (driver_quit E (env s)) as [[[]|e] env1]; simpl;
    eexists; repeat split.
Qed.

(** [navigate] performs its planned calls in order (page load, readiness
    wait when a condition is given, settle delay) and stops at the first
    that raises: the calls it makes are exactly the planned ones up to and
    including that one, and all of them when none raises.  It returns
    [True] exactly when none raised and otherwise logs the error of the
    call that did; the environment is left as the last call made left it
    and the collected records are unchanged. *)
Theorem navigate_calls (E : Environment) (url : string)
    (wait_condition : option Callable) (additional_wait : seconds)
    (s : state E) :
  let '(made, err, e') :=
    run_steps E (navigate_steps E url wait_condition additional_wait) (env s) in
  navigate url wait_condition additional_wait s
  = (Ok (match err with None => true | Some _ => false end),
     {| env := e';
        calls := calls s ++ made;
        log := log s ++ match err with
                        | Some x => [ERROR "Navigation error: " x]
                        | None => []
                        end;
        all_data := all_data s |}).
Proof.
  unfold navigate, navigate_steps, try_except, bind, call_env, logger, modify, ret.
  destruct s as [e0 cs lg ad]. simpl.
  destruct (driver_get E url e0) as [[[]|e] env1]; simpl; [|reflexivity].
  destruct wait_condition as [c|]; simpl.
  - destruct (wait_until E c env1) as [[[]|e] env2]; simpl.
    2: { now rewrite <- app_assoc. }
    destruct (time_sleep E additional_wait env2) as [[[]|e] env3]; simpl;
      now rewrite ?app_nil_r, <- !app_assoc.
  - destruct (time_sleep E additional_wait env1) as [[[]|e] env3]; simpl;
      now rewrite ?app_nil_r, <- !app_assoc.
Qed.

(** What [run_steps] returns: the calls made are a prefix of the plan,
    they all returned except, in case of an error, the last one, which
    raised it. *)
Lemma run_steps_prefix (E : Environment)
    (steps : list (call * (Env E -> result unit * Env E))) : forall e,
  let '(made, err, _) := run_steps E steps e in
  exists skipped,
    map fst steps = made ++ skipped
    /\ match err with None => skipped = [] | Some _ => made <> [] end.
Proof.
  induction steps as [|[c f] steps IH]; intros e; simpl.
  - exists []. auto.
  - destruct (f e) as [[[]|x] e1].
    + specialize (IH e1). destruct (run_steps E steps e1) as [[made err] e2].
      destruct IH as (skipped & Hs & He). exists skipped. simpl.
      rewrite Hs. split; [reflexivity|]. destruct err; [discriminate | exact He].
    + exists (map fst steps). split; [reflexivity|]. discriminate.
Qed.

Section Orchestrator.
Context {E : Environment}.

Lemma init_calls browser headless (s : state E) r s1 :
  __init__ browser headless s = (r, s1) ->
  exists made,
    calls s1 = calls s ++ made
    /\ Forall (fun c => c = Call_os_makedirs \/ c = Call_ChromeDriverManager_install
                        \/ c = Call_webdriver_Chrome headless) made
    /\ all_data s1 = all_data s.
Proof.
  unfold __init__, _setup_webdriver, bind, call_env, logger, modify, raise.
  destruct (os_makedirs E (env s)) as [[[]|e] env1]; simpl.
  2: { intros [= <- <-]. exists [Call_os_makedirs].
       split; [reflexivity|]. split; [|reflexivity]. repeat constructor. }
  destruct (negb (String.eqb (lower browser) "chrome")); simpl.
  { intros [= <- <-]. exists [Call_os_makedirs].
    split; [reflexivity|]. split; [|reflexivity]. repeat constructor. }
  destruct (ChromeDriverManager_install E env1) as [[[]|e] env2]; simpl.
  2: { intros [= <- <-].
       exists [Call_os_makedirs; Call_ChromeDriverManager_install].
       split; [simpl; now rewrite <- app_assoc|]. split; [|reflexivity].
       repeat (apply Forall_cons || apply Forall_nil); auto. }
  destruct (webdriver_Chrome E headless env2) as [[[]|e] env3]; simpl;
    intros [= <- <-];
    exists [Call_os_makedirs; Call_ChromeDriverManager_install;
            Call_webdriver_Chrome headless];
    (split; [simpl; now rewrite <- !app_assoc|]); (split; [|reflexivity]);
    repeat (apply Forall_cons || apply Forall_nil); auto.
Qed.

End Orchestrator.

(** The scraper is created before the [try] statement: when its creation
    raises, [nyse_auction_scraper_example] raises the same error at once.
    No page is loaded, nothing is exported, and [close] is not called:
    the only calls made are those of the creation. *)
Theorem constructor_failure_propagates (E : Environment)
    (tickers dates : list string) (s s1 : state E) (e : exn) :
  __init__ "chrome" false s = (Raise e, s1) ->
  nyse_auction_scraper_example tickers dates s = (Raise e, s1)
  /\ exists made, calls s1 = calls s ++ made /\ Forall setup_call made.
Proof.
  intros H. split.
  - unfold nyse_auction_scraper_example, bind. now rewrite H.
  - destruct (init_calls _ _ _ H) as (made & Hc & F & _). eauto.
Qed.

Lemma constructor_failure_propagates_witness :
  nyse_auction_scraper_example ["A"] ["12-02-2024"] (blank no_browser "about:blank")
  = (Raise WebDriverException,
     {| env := "about:blank" : Env no_browser;
        calls := [Call_os_makedirs; Call_ChromeDriverManager_install;
                  Call_webdriver_Chrome false];
        log := []; all_data := [] |}).
Proof.
  exact (proj1 (@constructor_failure_propagates no_browser ["A"] ["12-02-2024"]
                  (blank no_browser "about:blank") _ WebDriverException eq_refl)).
Defined.

Section Runs.
Context {E : Environment}.

Lemma export_calls (s1 : state E) :
  exists r s2, export s1 = (r, s2)
               /\ calls s2 = calls s1 ++ [Call_to_csv (all_data s1)].
Proof.
  unfold export, bind, gets, call_env, logger, modify.
  destruct (to_csv E (all_data s1) (env s1)) as [[[]|e] env1]; simpl;
    eexists _, _; split; reflexivity.
Qed.

(** After loops that returned, [scrape] exports once, with the records
    collected, and then closes the browser; it returns normally. *)
Lemma scrape_after_loops tickers dates (s0 s1 : state E) :
  for_ (list_prod tickers dates) (pair_body E) s0 = (Ok tt, s1) ->
  exists s',
    scrape tickers dates s0 = (Ok tt, s')
    /\ calls s' = calls s1 ++ [Call_to_csv (all_data s1); Call_driver_quit].
Proof.
  intros Hl. rewrite scrape_unfold. unfold bind. rewrite Hl.
  destruct (export_calls s1) as (r & s2 & -> & Hc).
  destruct r as [[]|e].
  - destruct (close_spec s2) as (s' & -> & Hq & _).
    exists s'. split; [reflexivity|]. rewrite Hq, Hc, <- app_assoc. reflexivity.
  - destruct (close_spec (@log_error E e s2)) as (s' & -> & Hq & _).
    exists s'. split; [reflexivity|]. rewrite Hq. simpl.
    rewrite Hc, <- app_assoc. reflexivity.
Qed.

End Runs.

(** When no page can be loaded, every pair is still visited, in the order
    of the nested loops (tickers outermost), with one page load each and
    nothing else; the records collected stay as they were, the export is
    written once with them, the browser is closed and the run returns
    normally. *)
Theorem all_navigations_fail (E : Environment) (tickers dates : list string)
    (s0 : state E) :
  (forall url e, is_ok (fst (driver_get E url e)) = false) ->
  exists s',
    scrape tickers dates s0 = (Ok tt, s')
    /\ calls s' = calls s0
                  ++ map (fun td => Call_driver_get (request_url (fst td) (snd td)))
                         (list_prod tickers dates)
                  ++ [Call_to_csv (all_data s0); Call_driver_quit].
Proof.
  intros H.
  assert (P : forall td (s : state E), exists s',
            pair_body E td s = (Ok tt, s')
            /\ calls s' = calls s ++ [Call_driver_get (request_url (fst td) (snd td))]
            /\ all_data s' = all_data s).
  { intros [t d] s. unfold pair_body, process_pair, navigate, try_except, bind,
      call_env, logger, modify, ret. simpl.
    specialize (H (request_url t d) (env s)).
    destruct (driver_get E (request_url t d) (env s)) as [[[]|e] env1];
      [discriminate|].
    simpl. eexists. repeat split. }
  assert (L : forall pairs (s : state E), exists s1,
            for_ pairs (pair_body E) s = (Ok tt, s1)
            /\ calls s1 = calls s
                 ++ map (fun td => Call_driver_get (request_url (fst td) (snd td)))
                        pairs
            /\ all_data s1 = all_data s).
  { induction pairs as [|td pairs IH]; intros s; simpl.
    - eexists. split; [reflexivity|]. now rewrite app_nil_r.
    - unfold bind. destruct (P td s) as (s' & -> & Hc & Hd).
      destruct (IH s') as (s1 & -> & Hc1 & Hd1).
      exists s1. split; [reflexivity|].
      rewrite Hc1, Hc, Hd1, Hd, <- app_assoc. auto. }
  destruct (L (list_prod tickers dates) s0) as (s1 & Hl & Hc & Hd).
  destruct (scrape_after_loops tickers dates s0 Hl) as (s' & Hs & Hc').
  exists s'. split; [exact Hs|]. rewrite Hc', Hc, Hd, <- app_assoc. reflexivity.
Qed.

Lemma all_navigations_fail_witness :
  exists s',
    scrape ["A"; "WFC"] ["12-02-2024"; "12-03-2024"] (blank offline "about:blank")
    = (Ok tt, s')
    /\ calls s' = []
                  ++ [Call_driver_get (request_url "A" "12-02-2024");
                      Call_driver_get (request_url "A" "12-03-2024");
                      Call_driver_get (request_url "WFC" "12-02-2024");
                      Call_driver_get (request_url "WFC" "12-03-2024")]
                  ++ [Call_to_csv []; Call_driver_quit].
Proof.
  apply (@all_navigations_fail offline ["A"; "WFC"] ["12-02-2024"; "12-03-2024"]
           (blank offline "about:blank")).
  intros url e. reflexivity.
Defined.

(** When every pair is processed without an exception, the records reach
    the export in the order of the nested loops: if processing [(t, d)]
    appends [f t d], the table written, once, holds the records collected
    before followed by [f t d] for each ticker in turn and, within a
    ticker, each date in turn. *)
Theorem export_receives_all_records (E : Environment)
    (tickers dates : list string) (f : string -> string -> list AuctionRecord)
    (s0 : state E) :
  (forall t d (s : state E), exists s',
      process_pair t d s = (Ok tt, s') /\ all_data s' = all_data s ++ f t d) ->
  exists s1 s',
    for_ tickers (fun ticker => for_ dates (fun date => process_pair ticker date)) s0
    = (Ok tt, s1)
    /\ all_data s1
       = all_data s0
         ++ flat_map (fun t => flat_map (fun d => f t d) dates) tickers
    /\ scrape tickers dates s0 = (Ok tt, s')
    /\ calls s' = calls s1 ++ [Call_to_csv (all_data s1); Call_driver_quit].
Proof.
  intros H.
  assert (D : forall t ds (s : state E), exists s1,
            for_ ds (fun date => process_pair t date) s = (Ok tt, s1)
            /\ all_data s1 = all_data s ++ flat_map (fun d => f t d) ds).
  { intros t. induction ds as [|d ds IH]; intros s; simpl.
    - eexists. split; [reflexivity|]. now rewrite app_nil_r.
    - unfold bind. destruct (H t d s) as (s' & -> & Hd).
      destruct (IH s') as (s1 & -> & Hd1).
      exists s1. split; [reflexivity|]. now rewrite Hd1, Hd, <- app_assoc. }
  assert (T : forall ts (s : state E), exists s1,
            for_ ts (fun ticker => for_ dates (fun date => process_pair ticker date)) s
            = (Ok tt, s1)
            /\ all_data s1
               = all_data s ++ flat_map (fun t => flat_map (fun d => f t d) dates) ts).
  { induction ts as [|t ts IH]; intros s; simpl.
    - eexists. split; [reflexivity|]. now rewrite app_nil_r.
    - unfold bind. destruct (D t dates s) as (s' & -> & Hd).
      destruct (IH s') as (s1 & -> & Hd1).
      exists s1. split; [reflexivity|]. now rewrite Hd1, Hd, <- app_assoc. }
  destruct (T tickers s0) as (s1 & Hl & Hd).
  assert (Hl' : for_ (list_prod tickers dates) (pair_body E) s0 = (Ok tt, s1))
    by (now rewrite <- for_nested).
  destruct (scrape_after_loops tickers dates s0 Hl') as (s' & Hs & Hc).
  exists s1, s'. auto.
Qed.

Lemma export_receives_all_records_witness :
  exists s1 s',
    for_ ["A"; "WFC"]
         (fun ticker => for_ ["12-02-2024"] (fun date => process_pair ticker date))
         (initial_state all_good) = (Ok tt, s1)
    /\ all_data s1
       = [] ++ flat_map (fun t => flat_map (fun d => bundle_records t d example_bundle)
                                           ["12-02-2024"]) ["A"; "WFC"]
    /\ scrape ["A"; "WFC"] ["12-02-2024"] (initial_state all_good) = (Ok tt, s')
    /\ calls s' = calls s1 ++ [Call_to_csv (all_data s1); Call_driver_quit].
Proof.
  apply (@export_receives_all_records (scripted all_good) ["A"; "WFC"]
           ["12-02-2024"] (fun t d => bundle_records t d example_bundle)
           (initial_state all_good)).
  intros t d s.
  destruct (@process_pair_navigated (scripted all_good) t d s _ _
              (bundle_value example_bundle) eq_refl eq_refl) as [Hp Hd].
  rewrite Hp. unfold on_all_data. rewrite normalize_bundle.
  eexists. split; [reflexivity|]. simpl. reflexivity.
Defined.

(* ------------------------------------------------------------------ *)
(** ** Further properties of the normalizer and of the in-page script *)

(** The loops of [normalize] start by reading [raw_data["opening"]]: a
    value that is not an object ends them with [TypeError], an object
    without that key with [KeyError], and so does an object whose
    [opening] is empty and that has no [closing].  Nothing is appended in
    these cases. *)
Theorem normalize_needs_phases (ticker date : string) (raw_data : json)
    (acc : list AuctionRecord) :
  ((forall members, raw_data <> JObj members) ->
   normalize ticker date raw_data acc = (Raise TypeError, acc))
  /\ (forall members,
        raw_data = JObj members -> lookup "opening" members = None ->
        normalize ticker date raw_data acc = (Raise KeyError, acc))
  /\ (forall members phase,
        raw_data = JObj members -> lookup "opening" members = Some phase ->
        truthy phase = false -> lookup "closing" members = None ->
        normalize ticker date raw_data acc = (Raise KeyError, acc)).
Proof.
  rewrite normalize_unfold. split; [|split].
  - intros H. destruct raw_data; try reflexivity. now destruct (H members).
  - intros members -> H. simpl. unfold bind, lift. simpl. now rewrite H.
  - intros members phase -> Ho Hf Hc. simpl. unfold bind, lift, ret. simpl.
    now rewrite Ho, Hf, Hc.
Qed.

Lemma normalize_needs_phases_witness :
  normalize "A" "12-02-2024" (JArr []) [] = (Raise TypeError, [])
  /\ normalize "A" "12-02-2024" (JObj []) [] = (Raise KeyError, [])
  /\ normalize "A" "12-02-2024" (JObj [("opening", JObj [])]) []
     = (Raise KeyError, []).
Proof.
  split; [|split].
  - apply (proj1 (normalize_needs_phases "A" "12-02-2024" (JArr []) [])).
    intros members H. discriminate H.
  - exact (proj1 (proj2 (normalize_needs_phases "A" "12-02-2024" (JObj []) []))
             [] eq_refl eq_refl).
  - exact (proj2 (proj2 (normalize_needs_phases "A" "12-02-2024"
                           (JObj [("opening", JObj [])]) []))
             _ _ eq_refl eq_refl eq_refl eq_refl).
Defined.

Section LoopsThatReturn.
Variables (S A : Type).

Lemma bind_lift_returns B (r : result A) (k : A -> M S B) s u s' :
  bind (lift r) k s = (Ok u, s') -> exists v, r = Ok v /\ k v s = (Ok u, s').
Proof.
  unfold bind, lift. destruct r as [v|e]; [eauto | discriminate].
Qed.

Lemma for_returns_each (xs : list A) (body : A -> M S unit) : forall s s',
  for_ xs body s = (Ok tt, s') ->
  forall x, In x xs -> exists s1 s2, body x s1 = (Ok tt, s2).
Proof.
  induction xs as [|x0 xs IH]; intros s s' H x Hx; [destruct Hx|].
  simpl in H. unfold bind in H.
  destruct (body x0 s) as [[[]|e] s1] eqn:Hb; [|discriminate].
  destruct Hx as [<- | Hx]; eauto.
Qed.

End LoopsThatReturn.

Lemma get_truthy_getitem phase metric series :
  get phase metric = Ok series -> truthy series = true ->
  getitem phase metric = Ok series.
Proof.
  unfold get, getitem. destruct phase; try discriminate.
  destruct (lookup metric members); intros [= <-]; [reflexivity | discriminate].
Qed.

Lemma on_metric_returns ticker date raw_data auction_type metric phase s1 s2 :
  getitem raw_data auction_type = Ok phase ->
  on_metric ticker date raw_data auction_type metric s1 = (Ok tt, s2) ->
  exists series, get phase metric = Ok series
                 /\ (truthy series = true -> well_formed_series series).
Proof.
  intros Hp. unfold on_metric. rewrite Hp. intros H.
  apply bind_lift_returns in H. destruct H as (ph & [= <-] & H).
  apply bind_lift_returns in H. destruct H as (series & Hs & H).
  exists series. split; [exact Hs|]. intros Ht. rewrite Ht in H.
  apply bind_lift_returns in H. destruct H as (ph & [= <-] & H).
  rewrite (get_truthy_getitem _ _ Hs Ht) in H.
  apply bind_lift_returns in H. destruct H as (sr & [= <-] & H).
  apply bind_lift_returns in H. destruct H as (times & Hti & H).
  apply bind_lift_returns in H. destruct H as (ph & [= <-] & H).
  apply bind_lift_returns in H. destruct H as (sr & Hsr & H).
  rewrite (get_truthy_getitem _ _ Hs Ht) in Hsr. injection Hsr as <-.
  apply bind_lift_returns in H. destruct H as (values & Hv & H).
  apply bind_lift_returns in H. destruct H as (pairs & Hz & H).
  exists times, values, pairs. repeat split; try assumption.
  intros tv Htv.
  destruct (for_returns_each _ _ _ H tv Htv) as (a1 & a2 & He).
  unfold emit in He. destruct tv as [t v].
  apply bind_lift_returns in He. destruct He as (y & Hy & He).
  apply bind_lift_returns in He. destruct He as (l & Hl & _).
  simpl. eauto.
Qed.

(** [normalize] checks its input only by running over it.  Whenever it
    returns normally, the value had both phases and, in each phase that
    is not empty, every metric that is not empty was a well-formed
    series; so a series without [times], or a point without [label],
    makes it raise. *)
Theorem normalize_success_shape (ticker date : string) (raw_data : json)
    (acc acc' : list AuctionRecord) :
  normalize ticker date raw_data acc = (Ok tt, acc') ->
  forall auction_type, In auction_type ["opening"; "closing"] ->
    exists phase,
      getitem raw_data auction_type = Ok phase
      /\ (truthy phase = true ->
          forall metric, In metric ["imbalance"; "paired"; "price"] ->
            exists series,
              get phase metric = Ok series
              /\ (truthy series = true -> well_formed_series series)).
Proof.
  rewrite normalize_unfold. intros H auction_type Ha.
  destruct (for_returns_each _ _ _ H auction_type Ha) as (s1 & s2 & Hb).
  apply bind_lift_returns in Hb. destruct Hb as (phase & Hp & Hb).
  exists phase. split; [exact Hp|]. intros Ht metric Hm. rewrite Ht in Hb.
  destruct (for_returns_each _ _ _ Hb metric Hm) as (a1 & a2 & Hmet).
  eapply on_metric_returns; eassumption.
Qed.

Lemma normalize_success_shape_witness :
  exists phase,
    getitem (bundle_value example_bundle) "opening" = Ok phase
    /\ (truthy phase = true ->
        forall metric, In metric ["imbalance"; "paired"; "price"] ->
          exists series,
            get phase metric = Ok series
            /\ (truthy series = true -> well_formed_series series)).
Proof.
  apply (@normalize_success_shape "A" "12-02-2024" (bundle_value example_bundle)
           [] _ eq_refl).
  simpl. auto.
Defined.

(** The script and the loops fit together.  On a page whose charts are
    all plain, what the script returns is the value of a bundle, and
    [normalize] turns it into the records of that bundle without an
    error.  On a page without heading, whatever its charts are, plain or
    not, the script returns and [normalize] appends nothing. *)
Theorem plain_page_pipeline (page : Js.Page) (ticker date : string)
    (acc : list AuctionRecord) :
  ((forall c, In (Some c) (Js.charts page) -> plain_chart c = true) ->
   exists b,
     Js.raw_data_script page = Ok (bundle_value b)
     /\ normalize ticker date (bundle_value b) acc
        = (Ok tt, acc ++ bundle_records ticker date b))
  /\ (Js.headers page = [] ->
      exists v,
        Js.raw_data_script page = Ok v
        /\ normalize ticker date v acc = (Ok tt, acc)).
Proof.
  split.
  - intros H. destruct (script_output_is_bundle page H) as [b Hb].
    exists b. split; [exact Hb | apply normalize_bundle].
  - intros Hh. unfold Js.raw_data_script. rewrite Hh. simpl.
    eexists. split; reflexivity.
Qed.

Lemma example_page_plain :
  forall c, In (Some c) (Js.charts example_page) -> plain_chart c = true.
Proof.
  intros c H. simpl in H.
  repeat (destruct H as [H | H];
          [first [discriminate H | (inversion H; reflexivity)]|]).
  destruct H.
Defined.

Lemma plain_page_pipeline_witness :
  (exists b,
     Js.raw_data_script example_page = Ok (bundle_value b)
     /\ normalize "A" "12-02-2024" (bundle_value b) []
        = (Ok tt, [] ++ bundle_records "A" "12-02-2024" b))
  /\ (exists v,
        Js.raw_data_script bare_page = Ok v
        /\ normalize "A" "12-02-2024" v [] = (Ok tt, [])).
Proof.
  split.
  - exact (proj1 (@plain_page_pipeline example_page "A" "12-02-2024" [])
             example_page_plain).
  - exact (proj2 (@plain_page_pipeline bare_page "A" "12-02-2024" []) eq_refl).
Defined.

Lemma nth_chart_readable (charts : list (option Js.Chart)) :
  (forall c, In (Some c) charts ->
             exists v, Js.extractSeriesData (Some c) = Ok v) ->
  forall i, exists v, Js.extractSeriesData (nth i charts None) = Ok v.
Proof.
  intros H i.
  destruct (nth i charts None) as [c|] eqn:Hn; [|exists JNull; reflexivity].
  apply H. rewrite <- Hn.
  destruct (Nat.lt_ge_cases i (List.length charts)) as [L | G].
  - now apply nth_In.
  - rewrite nth_overflow in Hn by assumption. discriminate.
Qed.

(** A page may hold fewer charts than three per heading without making
    the script fail: when every chart that is there can be read, the
    script returns, however many headings there are, and in the value
    returned every slot whose position lies past the end of the chart
    list is [null]. *)
Theorem missing_charts_are_null (page : Js.Page) :
  (forall c, In (Some c) (Js.charts page) ->
             exists v, Js.extractSeriesData (Some c) = Ok v) ->
  exists rd,
    Js.raw_data_script page = Ok (Js.rawData_value rd)
    /\ forall t k,
         last_heading t (Js.headers page) = Some k ->
         exists a b c,
           Js.rd_get rd t = triple a b c
           /\ (List.length (Js.charts page) <= 3 * k -> a = JNull)%nat
           /\ (List.length (Js.charts page) <= 3 * k + 1 -> b = JNull)%nat
           /\ (List.length (Js.charts page) <= 3 * k + 2 -> c = JNull)%nat.
Proof.
  intros H. pose proof (nth_chart_readable _ H) as R.
  unfold Js.raw_data_script. fold rawData0.
  destruct (@forEach_returns (Js.charts page) (Js.headers page) R
              (rawData0, 0%nat)) as [[rd idx] Ef].
  rewrite Ef. exists rd. split; [reflexivity|].
  intros t k Hl.
  destruct (forEach_spec _ _ Ef) as (_ & _ & Ph).
  specialize (Ph t). unfold phase_after in Ph. rewrite Hl in Ph.
  destruct Ph as (a & b & c & Ha & Hb & Hc & Ht).
  exists a, b, c. split; [exact Ht|].
  repeat split; intros Hn;
    match goal with
    | H : Js.extractSeriesData (nth ?i _ _) = Ok ?x |- ?x = JNull =>
        rewrite nth_overflow in H by lia; simpl in H; congruence
    end.
Qed.

Lemma example_page_readable :
  forall c, In (Some c) (Js.charts example_page) ->
            exists v, Js.extractSeriesData (Some c) = Ok v.
Proof.
  intros c H. simpl in H.
  repeat (destruct H as [H | H];
          [first [discriminate H
                 | (inversion H; eexists; reflexivity)]|]).
  destruct H.
Defined.

(** [missing_charts_are_null] on the example page, which has two headings
    and five charts: the script returns, and the [price] slot of the
    closing phase, at position 5, is [null]. *)
Lemma missing_charts_are_null_witness :
  exists rd a b,
    Js.raw_data_script example_page = Ok (Js.rawData_value rd)
    /\ Js.rd_get rd Js.closing = triple a b JNull.
Proof.
  destruct (missing_charts_are_null example_page example_page_readable)
    as (rd & Hs & Hk).
  destruct (Hk Js.closing 1%nat eq_refl) as (a & b & c & Ht & _ & _ & Hc).
  exists rd, a, b. split; [exact Hs|].
  rewrite Ht. rewrite (Hc ltac:(simpl; lia)). reflexivity.
Defined.
